(** * ScribeAI recording session coordinator (scribe-ai/server.ts)

    A shallow embedding of the Socket.IO server of [scribe-ai/server.ts]:
    the in-memory map [activeRecordings], the five socket handlers, the
    periodic clean-up and the asynchronous function
    [processRecordingWithGemini].

    JavaScript runs one turn at a time: a handler runs until it returns or
    reaches an [await], and the rest of an [async] function runs in a later
    turn, when the awaited promise settles.  The model keeps that shape: a
    turn is a function from the state to a new state and the list of
    messages it emits, and what is left of an [async] function after an
    [await] is a value of type [Cont] queued in the state.  The answers of
    the outside world (the clock, the database, the Gemini calls) are the
    [Env] argument of the turn. *)

From stdpp Require Import gmap strings list fin_maps.
From Stdlib Require Import ZArith Strings.Byte.

Local Open Scope Z_scope.
Local Open Scope string_scope.

(** ** Data *)

(** An [ArrayBuffer] is a sequence of bytes. *)
Definition ArrayBuffer := list byte.

(** A [Blob]: its bytes and its [type]. *)
Record Blob := mkBlob { blob_bytes : list byte; blob_type : string }.

(** [new Blob(parts, { type })] over array buffers. *)
Definition new_Blob (parts : list ArrayBuffer) (type : string) : Blob :=
  mkBlob (concat parts) type.

(** [new Blob(parts, { type })] over blobs. *)
Definition new_Blob_of_blobs (parts : list Blob) (type : string) : Blob :=
  mkBlob (concat (map blob_bytes parts)) type.

(** [interface AudioChunkData]; the optional [timestamp] is never read. *)
Record AudioChunkData := mkAudioChunkData {
  chunk_recordingId : string;
  chunk : ArrayBuffer;
  isFinal : bool
}.

(** [interface RecordingData]. *)
Record RecordingData := mkRecordingData { recordingId : string }.

(** The value type of [activeRecordings]. *)
Record LiveSession := mkLiveSession {
  socketId : string;
  startTime : Z;
  chunks : list Blob;
  isPaused : bool
}.

(** The statuses a durable record can have, as the backend migration and
    [utils/enums.js] list them.  The enum of the [Recording] table itself
    has ACTIVE and no FAILED; the server writes RECORDING, PAUSED and
    COMPLETED only and reads none. *)
Inductive SessionStatus := RECORDING | PAUSED | PROCESSING | COMPLETED | FAILED.

(** The columns of the durable row that the server reads or writes. *)
Record Recording := mkRecording {
  status : SessionStatus;
  transcript : option string;
  summary : option string;
  duration : option Z
}.

(** A thrown value: an [Error] with its [message], or anything else. *)
Inductive Thrown := ErrorObj (message : string) | NonError.

(** [interface ServerToClientEvents]. *)
Inductive ServerEvent :=
| TranscriptionUpdate (id text timestamp : string) (final : bool)
| RecordingCompleted (id summary transcript : string) (duration : Z)
| RecordingError (id error : string)
| RecordingStatus (id status : string)
| AudioChunkReceived (id : string) (success : bool).

(** [socket.emit] reaches one socket, [io.emit] every connected client. *)
Inductive Emit :=
| ToSocket (sock : string) (ev : ServerEvent)
| Broadcast (ev : ServerEvent).

(** What the outside world answers during one turn: [Date.now()],
    [new Date().toISOString()], whether the Prisma call of the turn throws,
    and the outcome of the Gemini call the turn was waiting for. *)
Record Env := mkEnv {
  now : Z;
  iso : string;
  db_throws : option Thrown;
  ai : Thrown + string
}.

(** What is left of [processRecordingWithGemini] after each [await].  The
    function keeps [recordingData], a reference to the registry object, but
    after the first [await] it reads only [startTime], which is never
    assigned again, so the continuation holds that number. *)
Inductive PipelineCont :=
| AwaitFindUnique (id : string) (startTime : Z) (combinedBlob : Blob)
| AwaitTranscribe (id : string) (combinedBlob : Blob) (duration : Z)
| AwaitSummary (id transcript : string) (duration : Z)
| AwaitUpdate (id transcript summary : string) (duration : Z)
| AwaitErrorUpdate (id : string) (error : Thrown).

(** Continuations of the handlers that await a database write. *)
Inductive Cont :=
| Pipeline (k : PipelineCont)
| AwaitPauseUpdate (sock id : string)
| AwaitResumeUpdate (sock id : string).

(** The server: the registry, the durable rows, the pending awaits. *)
Record State := mkState {
  activeRecordings : gmap string LiveSession;
  db : gmap string Recording;
  pending : list Cont
}.

Definition initial : State := mkState ∅ ∅ [].

Definition set_activeRecordings (st : State) (m : gmap string LiveSession) : State :=
  mkState m (db st) (pending st).

Definition set_db (st : State) (d : gmap string Recording) : State :=
  mkState (activeRecordings st) d (pending st).

Definition spawn (st : State) (k : Cont) : State :=
  mkState (activeRecordings st) (db st) (pending st ++ [k]).

(** ** The database client *)

(** Prisma is a library; the server relies on this much of it: [update]
    rejects when no row has the id, and any call may reject for a reason of
    its own ([db_throws]). *)
Definition record_not_found : string := "Record to update not found.".

Definition prisma_update (o : option Thrown) (id : string)
    (f : Recording -> Recording) (d : gmap string Recording)
  : Thrown + gmap string Recording :=
  match o with
  | Some e => inl e
  | None =>
      match d !! id with
      | Some r => inr (<[id := f r]> d)
      | None => inl (ErrorObj record_not_found)
      end
  end.

Definition prisma_findUnique (o : option Thrown) (id : string)
    (d : gmap string Recording) : Thrown + option Recording :=
  match o with
  | Some e => inl e
  | None => inr (d !! id)
  end.

(** ** socket.on('audio-chunk') *)

Definition push_chunk (b : Blob) (r : LiveSession) : LiveSession :=
  mkLiveSession (socketId r) (startTime r) (chunks r ++ [b]) (isPaused r).

(** [data.chunk] is an [ArrayBuffer], an object, hence truthy; only an empty
    [recordingId] fails the check. *)
Definition audio_chunk (env : Env) (sock : string) (data : AudioChunkData)
    (st : State) : State * list Emit :=
  let id := chunk_recordingId data in
  if String.eqb id "" then
    (st, [ToSocket sock (RecordingError id "Invalid audio chunk data")])
  else
    let blob := new_Blob [chunk data] "audio/webm" in
    let reg :=
      match activeRecordings st !! id with
      | Some _ => activeRecordings st
      | None => <[id := mkLiveSession sock (now env) [] false]> (activeRecordings st)
      end in
    let reg := alter (push_chunk blob) id reg in
    (set_activeRecordings st reg,
     ToSocket sock (AudioChunkReceived id true) ::
     (if isFinal data then [ToSocket sock (RecordingStatus id "PROCESSING")] else [])).

(** ** processRecordingWithGemini *)

(** The [catch] block up to its [await]. *)
Definition pipeline_catch (id : string) (e : Thrown) (st : State) : State * list Emit :=
  (spawn st (Pipeline (AwaitErrorUpdate id e)), []).

(** The call itself: the function body up to its first [await]. *)
Definition processRecordingWithGemini (id : string) (st : State) : State * list Emit :=
  match activeRecordings st !! id with
  | Some recordingData =>
      match chunks recordingData with
      | [] => pipeline_catch id (ErrorObj "No audio chunks available for processing") st
      | _ :: _ =>
          let combinedBlob := new_Blob_of_blobs (chunks recordingData) "audio/webm" in
          (spawn st (Pipeline (AwaitFindUnique id (startTime recordingData) combinedBlob)),
           [Broadcast (RecordingStatus id "PROCESSING")])
      end
  | None => pipeline_catch id (ErrorObj "No audio chunks available for processing") st
  end.

(** [error instanceof Error ? error.message : fallback]. *)
Definition message_or (fallback : string) (e : Thrown) : string :=
  match e with ErrorObj m => m | NonError => fallback end.

Definition error_markers (e : Thrown) (r : Recording) : Recording :=
  mkRecording COMPLETED
    (Some "Error: Failed to transcribe audio. Please check server logs.")
    (Some ("Processing failed: " ++ message_or "Unknown error" e))
    (duration r).

Definition completed_fields (t s : string) (d : Z) (r : Recording) : Recording :=
  mkRecording COMPLETED (Some t) (Some s) (Some d).

(** The turn that runs when the awaited promise of [k] settles. *)
Definition resume_pipeline (env : Env) (k : PipelineCont) (st : State)
  : State * list Emit :=
  match k with
  | AwaitFindUnique id startTime combinedBlob =>
      match prisma_findUnique (db_throws env) id (db st) with
      | inl e => pipeline_catch id e st
      | inr None => pipeline_catch id (ErrorObj "Recording not found in database") st
      | inr (Some _) =>
          let duration := (now env - startTime) / 1000 in
          (spawn st (Pipeline (AwaitTranscribe id combinedBlob duration)), [])
      end
  | AwaitTranscribe id combinedBlob duration =>
      match ai env with
      | inl e => pipeline_catch id e st
      | inr transcript =>
          (spawn st (Pipeline (AwaitSummary id transcript duration)),
           [Broadcast (TranscriptionUpdate id transcript (iso env) true)])
      end
  | AwaitSummary id transcript duration =>
      match ai env with
      | inl e => pipeline_catch id e st
      | inr summary =>
          (spawn st (Pipeline (AwaitUpdate id transcript summary duration)), [])
      end
  | AwaitUpdate id transcript summary duration =>
      match prisma_update (db_throws env) id
              (completed_fields transcript summary duration) (db st) with
      | inl e => pipeline_catch id e st
      | inr d =>
          (set_activeRecordings (set_db st d) (delete id (activeRecordings st)),
           [Broadcast (RecordingCompleted id summary transcript duration)])
      end
  | AwaitErrorUpdate id e =>
      let d :=
        match prisma_update (db_throws env) id (error_markers e) (db st) with
        | inl _ => db st
        | inr d => d
        end in
      (set_activeRecordings (set_db st d) (delete id (activeRecordings st)),
       [Broadcast (RecordingError id (message_or "Processing failed" e))])
  end.

(** ** socket.on('complete-recording') *)

(** The handler calls [processRecordingWithGemini] without awaiting it, so
    the first stretch of the pipeline runs inside the handler's turn. *)
Definition complete_recording (sock : string) (data : RecordingData)
    (st : State) : State * list Emit :=
  let id := recordingId data in
  match activeRecordings st !! id with
  | None =>
      (st, [ToSocket sock (RecordingError id
              "Recording session not found. No audio chunks received.")])
  | Some recording =>
      if (length (chunks recording) =? 0)%nat then
        (set_activeRecordings st (delete id (activeRecordings st)),
         [ToSocket sock (RecordingError id "No audio data received for processing")])
      else
        let '(st', out) := processRecordingWithGemini id st in
        (st', ToSocket sock (RecordingStatus id "PROCESSING") :: out)
  end.

(** ** socket.on('pause-recording') and socket.on('resume-recording') *)

Definition set_isPaused (b : bool) (r : LiveSession) : LiveSession :=
  mkLiveSession (socketId r) (startTime r) (chunks r) b.

Definition set_status (s : SessionStatus) (r : Recording) : Recording :=
  mkRecording s (transcript r) (summary r) (duration r).

(** Up to [await prisma.recording.update]. *)
Definition pause_recording (sock : string) (data : RecordingData)
    (st : State) : State * list Emit :=
  let id := recordingId data in
  (spawn (set_activeRecordings st (alter (set_isPaused true) id (activeRecordings st)))
         (AwaitPauseUpdate sock id), []).

Definition resume_recording (sock : string) (data : RecordingData)
    (st : State) : State * list Emit :=
  let id := recordingId data in
  (spawn (set_activeRecordings st (alter (set_isPaused false) id (activeRecordings st)))
         (AwaitResumeUpdate sock id), []).

(** After the write: the status message, or the [catch] that only logs. *)
Definition resume_status_update (env : Env) (sock id : string)
    (s : SessionStatus) (label : string) (st : State) : State * list Emit :=
  match prisma_update (db_throws env) id (set_status s) (db st) with
  | inl _ => (st, [])
  | inr d => (set_db st d, [ToSocket sock (RecordingStatus id label)])
  end.

(** ** socket.on('disconnect') *)

Definition disconnect (sock : string) (st : State) : State * list Emit :=
  (set_activeRecordings st
     (filter (λ kv, socketId kv.2 ≠ sock) (activeRecordings st)), []).

(** ** The setInterval callback *)

Definition cleanup (env : Env) (st : State) : State * list Emit :=
  let oneHourAgo := now env - 60 * 60 * 1000 in
  (set_activeRecordings st
     (filter (λ kv, ¬ (startTime kv.2 < oneHourAgo)) (activeRecordings st)), []).

(** ** Turns *)

Definition resume (env : Env) (k : Cont) (st : State) : State * list Emit :=
  match k with
  | Pipeline k => resume_pipeline env k st
  | AwaitPauseUpdate sock id => resume_status_update env sock id PAUSED "PAUSED" st
  | AwaitResumeUpdate sock id => resume_status_update env sock id RECORDING "RECORDING" st
  end.

(** What starts a turn: a message from a socket, the timer, or the settling
    of the [i]-th pending await. *)
Inductive Input :=
| AudioChunk (sock : string) (data : AudioChunkData)
| CompleteRecording (sock : string) (data : RecordingData)
| PauseRecording (sock : string) (data : RecordingData)
| ResumeRecording (sock : string) (data : RecordingData)
| Disconnect (sock : string)
| Tick
| Settle (i : nat).

Definition step (env : Env) (inp : Input) (st : State) : State * list Emit :=
  match inp with
  | AudioChunk sock data => audio_chunk env sock data st
  | CompleteRecording sock data => complete_recording sock data st
  | PauseRecording sock data => pause_recording sock data st
  | ResumeRecording sock data => resume_recording sock data st
  | Disconnect sock => disconnect sock st
  | Tick => cleanup env st
  | Settle i =>
      match pending st !! i with
      | None => (st, [])
      | Some k =>
          resume env k (mkState (activeRecordings st) (db st) (delete i (pending st)))
      end
  end.

(** A sequence of turns; the messages are collected in the order emitted. *)
Fixpoint run (tr : list (Env * Input)) (st : State) : State * list Emit :=
  match tr with
  | [] => (st, [])
  | (env, inp) :: tr =>
      let '(st1, out1) := step env inp st in
      let '(st2, out2) := run tr st1 in
      (st2, (out1 ++ out2)%list)
  end.

(** ** Observations *)

Definition is_status_processing (e : Emit) : bool :=
  match e with
  | ToSocket _ (RecordingStatus _ s) | Broadcast (RecordingStatus _ s) =>
      String.eqb s "PROCESSING"
  | _ => false
  end.

Definition is_completed (e : Emit) : bool :=
  match e with
  | ToSocket _ (RecordingCompleted _ _ _ _) | Broadcast (RecordingCompleted _ _ _ _) => true
  | _ => false
  end.


(** The chunks buffered for [id]; none when the registry has no entry. *)
Definition buffered (id : string) (st : State) : list Blob :=
  match activeRecordings st !! id with
  | Some r => chunks r
  | None => []
  end.

(** One [audio-chunk] turn for session [S]: the clock, the socket, the bytes. *)
Definition chunk_turn (S : string) (final : bool) (x : Env * string * ArrayBuffer)
  : Env * Input :=
  (x.1.1, AudioChunk x.1.2 (mkAudioChunkData S x.2 final)).

(** Chunks with [isFinal = false], then one with [isFinal = true]. *)
Definition chunk_sequence (S : string) (xs : list (Env * string * ArrayBuffer))
    (last : Env * string * ArrayBuffer) : list (Env * Input) :=
  (map (chunk_turn S false) xs ++ [chunk_turn S true last])%list.



(** ** Traces *)

(** A row as [POST /recordings] leaves it. *)
Definition row0 : Recording := mkRecording RECORDING None None None.

Definition ok (t : Z) : Env := mkEnv t "2025-11-20T17:12:58.000Z" None (inr "text").

(** One chunk, two [complete-recording], then every await settles well. *)
Definition twice : list (Env * Input) :=
  [ (ok 1000, AudioChunk "s1" (mkAudioChunkData "abc" [x01] true));
    (ok 2000, CompleteRecording "s1" (mkRecordingData "abc"));
    (ok 2000, CompleteRecording "s1" (mkRecordingData "abc"));
    (ok 3000, Settle 0); (ok 3000, Settle 0);
    (ok 4000, Settle 0); (ok 4000, Settle 0);
    (ok 5000, Settle 0); (ok 5000, Settle 0);
    (ok 6000, Settle 0); (ok 6000, Settle 0) ].

Definition fails (e : Thrown) (t : Z) : Env :=
  mkEnv t "2025-11-20T17:12:58.000Z" (Some e) (inl e).

(** One chunk, [complete-recording], both Gemini calls succeed, then the
    write of the result throws; the write of the error markers succeeds. *)
Definition write_fails : list (Env * Input) :=
  [ (ok 1000, AudioChunk "s1" (mkAudioChunkData "abc" [x01] true));
    (ok 2000, CompleteRecording "s1" (mkRecordingData "abc"));
    (ok 3000, Settle 0); (ok 4000, Settle 0); (ok 5000, Settle 0);
    (fails (ErrorObj "Can't reach database server at `db.internal:5432`") 6000, Settle 0);
    (ok 7000, Settle 0) ].

(** The transcription throws; the write of the error markers succeeds. *)
Definition transcribe_fails : list (Env * Input) :=
  [ (ok 1000, AudioChunk "s1" (mkAudioChunkData "abc" [x01] true));
    (ok 2000, CompleteRecording "s1" (mkRecordingData "abc"));
    (ok 3000, Settle 0);
    (fails (ErrorObj "[GoogleGenerativeAI Error]: fetch failed: 10.0.0.7:443") 4000, Settle 0);
    (ok 5000, Settle 0) ].

(** Three chunks, [complete-recording], and the four awaits of the pipeline. *)
Definition scenario (S sock : string) (c1 c2 c3 : ArrayBuffer)
    (e1 e2 e3 ec ef et es eu : Env) (n : nat) : list (Env * Input) :=
  (chunk_sequence S [(e1, sock, c1); (e2, sock, c2)] (e3, sock, c3) ++
   [ (ec, CompleteRecording sock (mkRecordingData S));
     (ef, Settle n); (et, Settle n); (es, Settle n); (eu, Settle n) ])%list.

(** ** Further observations *)

(** Every buffered session holds at least one chunk. *)
Definition buffers_nonempty (st : State) : Prop :=
  ∀ id r, activeRecordings st !! id = Some r → chunks r ≠ [].

(** The session a continuation of the pipeline works for. *)
Definition cont_id (k : PipelineCont) : string :=
  match k with
  | AwaitFindUnique id _ _ | AwaitTranscribe id _ _ | AwaitSummary id _ _
  | AwaitUpdate id _ _ _ | AwaitErrorUpdate id _ => id
  end.

(** The awaits a continuation of the pipeline still has before it, at most. *)
Definition rank (k : PipelineCont) : nat :=
  match k with
  | AwaitFindUnique _ _ _ => 5
  | AwaitTranscribe _ _ _ => 4
  | AwaitSummary _ _ _ => 3
  | AwaitUpdate _ _ _ _ => 2
  | AwaitErrorUpdate _ _ => 1
  end.

(** The two messages that end a pipeline. *)
Definition is_terminal (e : Emit) : bool :=
  match e with
  | Broadcast (RecordingCompleted _ _ _ _) | Broadcast (RecordingError _ _) => true
  | _ => false
  end.

(** The [recordingId] field of a message. *)
Definition event_id (e : Emit) : string :=
  match e with
  | ToSocket _ ev | Broadcast ev =>
      match ev with
      | TranscriptionUpdate id _ _ _ | RecordingCompleted id _ _ _
      | RecordingError id _ | RecordingStatus id _ | AudioChunkReceived id _ => id
      end
  end.

(** The session a turn is about; the disconnect and the timer have none. *)
Definition target (inp : Input) (st : State) : option string :=
  match inp with
  | AudioChunk _ data => Some (chunk_recordingId data)
  | CompleteRecording _ data | PauseRecording _ data | ResumeRecording _ data =>
      Some (recordingId data)
  | Disconnect _ | Tick => None
  | Settle i =>
      match pending st !! i with
      | Some (Pipeline k) => Some (cont_id k)
      | Some (AwaitPauseUpdate _ id) | Some (AwaitResumeUpdate _ id) => Some id
      | None => None
      end
  end.

(** The registry with every [isPaused] flag cleared. *)
Definition forget_paused (m : gmap string LiveSession) : gmap string LiveSession :=
  set_isPaused false <$> m.

(** The statuses that the server writes. *)
Definition written (s : SessionStatus) : Prop :=
  s = RECORDING ∨ s = PAUSED ∨ s = COMPLETED.

(** How one row may change: it stays absent, or its status stays or becomes
    one of the statuses that the server writes. *)
Definition row_evolves (o o' : option Recording) : Prop :=
  match o, o' with
  | Some row, Some row' => status row' = status row ∨ written (status row')
  | None, None => True
  | _, _ => False
  end.

(** The turns that neither start nor settle an await. *)
Definition quiet (inp : Input) : bool :=
  match inp with
  | AudioChunk _ _ | Disconnect _ | Tick => true
  | _ => false
  end.

(** [n] awaits settle in a row, each the one at position [i]. *)
Definition settles (i : nat) (envs : list Env) : list (Env * Input) :=
  map (λ e, (e, Settle i)) envs.

(** ** gracefulShutdown *)

(** What [gracefulShutdown] asks of the process: close the HTTP server,
    close Socket.IO, arm the timer that forces the exit. *)
Inductive ShutdownStep := ServerClose | IoClose | ForceExitAfter (ms : Z).

(** The flag [isShuttingDown] before the call; the flag after it and the
    steps taken. *)
Definition gracefulShutdown (isShuttingDown : bool) : bool * list ShutdownStep :=
  if isShuttingDown then (isShuttingDown, [])
  else (true, [ServerClose; IoClose; ForceExitAfter 30000]).

(** The process events the server listens to. *)
Inductive ProcessEvent := SIGTERM | SIGINT | UncaughtException | UnhandledRejection.

(** [unhandledRejection] only logs; the other three shut down. *)
Definition on_process_event (ev : ProcessEvent) (isShuttingDown : bool)
  : bool * list ShutdownStep :=
  match ev with
  | UnhandledRejection => (isShuttingDown, [])
  | SIGTERM | SIGINT | UncaughtException => gracefulShutdown isShuttingDown
  end.

Fixpoint on_process_events (evs : list ProcessEvent) (isShuttingDown : bool)
  : bool * list ShutdownStep :=
  match evs with
  | [] => (isShuttingDown, [])
  | ev :: evs =>
      let '(f1, out1) := on_process_event ev isShuttingDown in
      let '(f2, out2) := on_process_events evs f1 in
      (f2, (out1 ++ out2)%list)
  end.

Definition shuts_down (ev : ProcessEvent) : bool :=
  match ev with UnhandledRejection => false | _ => true end.

(** * Properties *)

(** ** Sequences of turns *)

Lemma run_app tr1 tr2 st :
  run (tr1 ++ tr2) st =
  ((run tr2 (run tr1 st).1).1, ((run tr1 st).2 ++ (run tr2 (run tr1 st).1).2)%list).
Proof.
  revert st. induction tr1 as [|[env inp] tr1 IH]; intros st; simpl.
  - by destruct (run tr2 st).
  - destruct (step env inp st) as [st1 out1]. rewrite IH.
    destruct (run tr1 st1) as [st2 out2]; simpl.
    destruct (run tr2 st2) as [st3 out3]; simpl.
    by rewrite app_assoc.
Qed.

Lemma run_one x st : run [x] st = step x.1 x.2 st.
Proof.
  destruct x as [env inp]. simpl. destruct (step env inp st) as [st1 out1]. by rewrite app_nil_r.
Qed.

(** ** Buffering *)

Lemma eqb_empty_false (id : string) : id ≠ "" → String.eqb id "" = false.
Proof. intros H. by apply String.eqb_neq. Qed.

Lemma audio_chunk_lookup env sock data st :
  chunk_recordingId data ≠ "" →
  activeRecordings (audio_chunk env sock data st).1 !! chunk_recordingId data =
  Some (push_chunk (mkBlob (chunk data) "audio/webm")
          (default (mkLiveSession sock (now env) [] false)
                   (activeRecordings st !! chunk_recordingId data))).
Proof.
  intros Hid. unfold audio_chunk. rewrite (eqb_empty_false _ Hid). simpl.
  unfold new_Blob. simpl. rewrite app_nil_r.
  destruct (activeRecordings st !! chunk_recordingId data) as [r|] eqn:E; simpl.
  - by rewrite lookup_alter_eq, E.
  - by rewrite lookup_alter_eq, lookup_insert_eq.
Qed.

Lemma audio_chunk_frame env sock data st :
  chunk_recordingId data ≠ "" →
  activeRecordings (audio_chunk env sock data st).1 !! chunk_recordingId data =
    Some (push_chunk (mkBlob (chunk data) "audio/webm")
            (default (mkLiveSession sock (now env) [] false)
                     (activeRecordings st !! chunk_recordingId data)))
  ∧ db (audio_chunk env sock data st).1 = db st
  ∧ pending (audio_chunk env sock data st).1 = pending st.
Proof.
  intros Hid. split; [by apply audio_chunk_lookup|].
  unfold audio_chunk. by rewrite (eqb_empty_false _ Hid).
Qed.

Lemma audio_chunk_buffered env sock data st :
  chunk_recordingId data ≠ "" →
  buffered (chunk_recordingId data) (audio_chunk env sock data st).1 =
  (buffered (chunk_recordingId data) st ++ [mkBlob (chunk data) "audio/webm"])%list.
Proof.
  intros Hid. unfold buffered. rewrite (audio_chunk_lookup _ _ _ _ Hid).
  by destruct (activeRecordings st !! chunk_recordingId data).
Qed.

Lemma run_chunk_turns S f xs st :
  S ≠ "" →
  buffered S (run (map (chunk_turn S f) xs) st).1 =
  (buffered S st ++ map (λ x, mkBlob x.2 "audio/webm") xs)%list.
Proof.
  intros HS. revert st. induction xs as [|x xs IH]; intros st; simpl.
  - by rewrite app_nil_r.
  - pose proof (audio_chunk_buffered x.1.1 x.1.2 (mkAudioChunkData S x.2 f) st HS) as Hb.
    simpl in Hb.
    destruct (audio_chunk x.1.1 x.1.2 (mkAudioChunkData S x.2 f) st) as [st1 out1].
    specialize (IH st1).
    destruct (run (map (chunk_turn S f) xs) st1) as [st2 out2]. simpl in *.
    by rewrite IH, Hb, <- app_assoc.
Qed.

Lemma concat_blob_bytes (cs : list ArrayBuffer) :
  map blob_bytes (map (λ c, mkBlob c "audio/webm") cs) = cs.
Proof. induction cs as [|c cs IH]; simpl; [done | by rewrite IH]. Qed.

(** C4. After chunks with [isFinal = false] followed by one chunk with
    [isFinal = true], all for a session [S] with a non-empty id that the
    registry did not hold before, the entry of [S] buffers exactly as many
    chunks as were sent, in the order received; the pipeline, when it
    starts, combines exactly these chunks, in that order, into the blob it
    sends to transcription. *)
Theorem C4_chunks_buffered_in_order
    (S : string) (xs : list (Env * string * ArrayBuffer))
    (last : Env * string * ArrayBuffer) (st : State) :
  S ≠ "" →
  activeRecordings st !! S = None →
  let st' := (run (chunk_sequence S xs last) st).1 in
  let sent := map snd (xs ++ [last]) in
  ∃ r, activeRecordings st' !! S = Some r
     ∧ length (chunks r) = length sent
     ∧ chunks r = map (λ c, mkBlob c "audio/webm") sent
     ∧ processRecordingWithGemini S st' =
         (spawn st' (Pipeline (AwaitFindUnique S (startTime r)
                                 (mkBlob (concat sent) "audio/webm"))),
          [Broadcast (RecordingStatus S "PROCESSING")]).
Proof.
  intros HS Hnone st' sent.
  assert (Hbuf : buffered S st' = map (λ c, mkBlob c "audio/webm") sent).
  { subst st' sent. unfold chunk_sequence. rewrite run_app. cbn [fst].
    rewrite run_one. unfold chunk_turn at 1 2. cbn [fst snd step].
    rewrite (audio_chunk_buffered _ _ (mkAudioChunkData S last.2 true) _ HS).
    rewrite run_chunk_turns by done.
    unfold buffered at 1. rewrite Hnone. simpl.
    by rewrite map_app, map_app, map_map. }
  assert (Hsome : is_Some (activeRecordings st' !! S)).
  { subst st'. unfold chunk_sequence. rewrite run_app. cbn [fst].
    rewrite run_one. unfold chunk_turn at 1 2. cbn [fst snd step].
    rewrite (audio_chunk_lookup _ _ (mkAudioChunkData S last.2 true) _ HS). eauto. }
  destruct Hsome as [r Hr]. exists r.
  unfold buffered in Hbuf. rewrite Hr in Hbuf.
  split; [done|]. split; [by rewrite Hbuf, length_map|]. split; [done|].
  unfold processRecordingWithGemini. rewrite Hr, Hbuf.
  assert (Hne : sent ≠ []) by (subst sent; rewrite map_app; by destruct (map snd xs)).
  destruct sent as [|c cs]; [done|]. simpl map at 1.
  unfold new_Blob_of_blobs. cbv zeta.
  change (mkBlob c "audio/webm" :: map (λ c0, mkBlob c0 "audio/webm") cs)
    with (map (λ c0, mkBlob c0 "audio/webm") (c :: cs)).
  by rewrite concat_blob_bytes.
Qed.

(** A run of C4 on three chunks. *)
Lemma C4_chunks_buffered_in_order_witness :
  ∃ r, activeRecordings
         (run (chunk_sequence "abc"
                 [(mkEnv 5 "" None (inr ""), "s1", [x01]);
                  (mkEnv 6 "" None (inr ""), "s1", [x02])]
                 (mkEnv 7 "" None (inr ""), "s1", [x03])) initial).1 !! "abc" = Some r
     ∧ chunks r = map (λ c, mkBlob c "audio/webm") [[x01]; [x02]; [x03]].
Proof.
  destruct (C4_chunks_buffered_in_order "abc"
              [(mkEnv 5 "" None (inr ""), "s1", [x01]);
               (mkEnv 6 "" None (inr ""), "s1", [x02])]
              (mkEnv 7 "" None (inr ""), "s1", [x03]) initial)
    as (r & Hr & _ & Hc & _); [done | reflexivity |].
  exists r. split; [exact Hr | exact Hc].
Defined.

(** ** Completing a session that has no audio *)

(** C7. A [complete-recording] whose session is absent from the registry, or
    present with no buffered chunk, emits one [recording-error] to the
    sending socket, leaves the registry without the session, writes nothing
    to the database and queues no continuation that could write later. *)
Theorem C7_complete_without_audio
    (env : Env) (sock : string) (data : RecordingData) (st : State) :
  (activeRecordings st !! recordingId data = None ∨
   ∃ r, activeRecordings st !! recordingId data = Some r ∧ chunks r = []) →
  ∃ st' reason,
    step env (CompleteRecording sock data) st =
      (st', [ToSocket sock (RecordingError (recordingId data) reason)])
    ∧ activeRecordings st' = delete (recordingId data) (activeRecordings st)
    ∧ activeRecordings st' !! recordingId data = None
    ∧ db st' = db st
    ∧ pending st' = pending st.
Proof.
  intros [Hnone | (r & Hr & Hc)]; simpl; unfold complete_recording.
  - rewrite Hnone. eexists st, _. split; [reflexivity|].
    rewrite delete_id by done. done.
  - rewrite Hr, Hc. simpl. eexists _, _. split; [reflexivity|]. simpl.
    by rewrite lookup_delete_eq.
Qed.

(** C7 on a session that was never started. *)
Lemma C7_complete_without_audio_witness :
  ∃ st' reason,
    step (mkEnv 0 "" None (inr "")) (CompleteRecording "s1" (mkRecordingData "abc")) initial =
      (st', [ToSocket "s1" (RecordingError "abc" reason)])
    ∧ db st' = db initial ∧ pending st' = pending initial.
Proof.
  destruct (C7_complete_without_audio (mkEnv 0 "" None (inr "")) "s1"
              (mkRecordingData "abc") initial) as (st' & reason & H1 & _ & _ & H2 & H3).
  - left. reflexivity.
  - exists st', reason. split; [exact H1 | split; [exact H2 | exact H3]].
Defined.

(** ** Who receives what *)




(** ** Settling the continuation queued last *)

Lemma settle_spawned env k st :
  step env (Settle (length (pending st))) (spawn st k) = resume env k st.
Proof.
  simpl. rewrite list_lookup_middle by done.
  rewrite delete_middle, app_nil_r. by destruct st.
Qed.

Lemma complete_recording_starts sock id st r :
  activeRecordings st !! id = Some r →
  chunks r ≠ [] →
  complete_recording sock (mkRecordingData id) st =
    (spawn st (Pipeline (AwaitFindUnique id (startTime r)
                           (new_Blob_of_blobs (chunks r) "audio/webm"))),
     [ToSocket sock (RecordingStatus id "PROCESSING");
      Broadcast (RecordingStatus id "PROCESSING")]).
Proof.
  intros Hr Hc. unfold complete_recording, processRecordingWithGemini. simpl.
  rewrite Hr. destruct (chunks r) as [|b bs] eqn:E; [done|]. reflexivity.
Qed.

(** ** Two completion signals in a row *)

(** C1, refuted as stated: after a chunk and a first [complete-recording],
    a second one still finds the session, is not a no-op, and leaves two
    pipelines pending; run to the end, both deliver [recording-completed]. *)
Lemma C1_second_complete_runs_again :
  let st0 := mkState ∅ {["abc" := row0]} [] in
  let st1 := (run (take 2 twice) st0).1 in
  let st2 := (step (ok 2000) (CompleteRecording "s1" (mkRecordingData "abc")) st1).1 in
  is_Some (activeRecordings st1 !! "abc")
  ∧ length (pending st1) = 1%nat
  ∧ length (pending st2) = 2%nat
  ∧ length (List.filter is_completed (run twice st0).2) = 2%nat.
Proof. vm_compute. repeat split; eauto. Qed.

(** ** The status column *)

Lemma step_keeps_db env inp st :
  (∀ i, inp ≠ Settle i) → db (step env inp st).1 = db st.
Proof.
  intros Hns. destruct inp as [sock data|sock data|sock data|sock data|sock| |i]; simpl.
  - unfold audio_chunk. by destruct (String.eqb _ _).
  - unfold complete_recording, processRecordingWithGemini.
    destruct (activeRecordings st !! recordingId data) as [r|]; [|done].
    by destruct (chunks r).
  - done.
  - done.
  - done.
  - done.
  - by destruct (Hns i).
Qed.




(** ** Chunks for a session whose pipeline has started *)

(** C8, refuted as stated: with the pipeline of "abc" pending, a further
    chunk grows the buffer from one chunk to two; after the pipeline has
    finished and removed the entry, a chunk creates the entry anew. *)
Lemma C8_chunk_during_processing_buffered :
  let st0 := mkState ∅ {["abc" := row0]} [] in
  let late := (ok 2500, AudioChunk "s1" (mkAudioChunkData "abc" [x02] false)) in
  let processing := (run (take 2 twice) st0).1 in
  let finished := (run (take 2 twice ++ [(ok 3000, Settle 0); (ok 4000, Settle 0);
                                         (ok 5000, Settle 0); (ok 6000, Settle 0)]) st0).1 in
  (length (pending processing) = 1%nat
   ∧ length (buffered "abc" processing) = 1%nat
   ∧ length (buffered "abc" (run [late] processing).1) = 2%nat)
  ∧ (status <$> db finished !! "abc" = Some COMPLETED
     ∧ activeRecordings finished !! "abc" = None
     ∧ length (buffered "abc" (run [late] finished).1) = 1%nat).
Proof. vm_compute. done. Qed.

(** C8, amended.  The chunk handler looks at neither the status of the
    session nor the pending pipelines: a chunk with a non-empty id is
    appended to the buffer of its session, or starts a buffer when the
    registry has no entry; the pending pipelines, which hold the blob they
    combined when they started, and the database are not touched. *)
Theorem C8_chunk_always_buffered
    (env : Env) (sock : string) (data : AudioChunkData) (st : State) :
  chunk_recordingId data ≠ "" →
  let st' := (step env (AudioChunk sock data) st).1 in
  buffered (chunk_recordingId data) st' =
    (buffered (chunk_recordingId data) st ++ [mkBlob (chunk data) "audio/webm"])%list
  ∧ pending st' = pending st
  ∧ db st' = db st.
Proof.
  intros Hid st'. subst st'. simpl. split; [by apply audio_chunk_buffered|].
  unfold audio_chunk. by rewrite (eqb_empty_false _ Hid).
Qed.

(** C8 amended, on a session whose pipeline is pending. *)
Lemma C8_chunk_always_buffered_witness :
  let processing := (run (take 2 twice) (mkState ∅ {["abc" := row0]} [])).1 in
  let data := mkAudioChunkData "abc" [x02] false in
  buffered "abc" (step (ok 2500) (AudioChunk "s1" data) processing).1 =
    [mkBlob [x01] "audio/webm"; mkBlob [x02] "audio/webm"].
Proof.
  intros processing data.
  destruct (C8_chunk_always_buffered (ok 2500) "s1" data processing) as [H _]; [done|].
  etransitivity; [exact H | reflexivity].
Defined.

(** ** The periodic clean-up *)

Lemma cleanup_lookup env st id :
  activeRecordings (cleanup env st).1 !! id =
  match activeRecordings st !! id with
  | Some r => if decide (startTime r < now env - 3600000) then None else Some r
  | None => None
  end.
Proof.
  unfold cleanup. simpl. rewrite map_lookup_filter.
  destruct (activeRecordings st !! id) as [r|]; simpl; [|done].
  change (60 * 60 * 1000) with 3600000.
  destruct (decide (startTime r < now env - 3600000)) as [Hlt|Hge].
  - rewrite option_guard_False; [done|]. simpl. tauto.
  - by rewrite option_guard_True.
Qed.

(** C9, refuted as stated: a session that started at time 0 and received a
    chunk one millisecond before the sweep is removed by it. *)
Lemma C9_active_session_swept :
  let tr := [ (ok 0, AudioChunk "s1" (mkAudioChunkData "abc" [x01] false));
              (ok 3600000, AudioChunk "s1" (mkAudioChunkData "abc" [x02] false)) ] in
  let st := (run tr initial).1 in
  length (buffered "abc" st) = 2%nat
  ∧ activeRecordings (step (ok 3600001) Tick st).1 !! "abc" = None.
Proof. vm_compute. done. Qed.

(** C9, amended.  The sweep measures age from [startTime], which is set
    when the first chunk creates the entry and is not changed by later
    chunks: it removes exactly the entries whose [startTime] is more than
    one hour before the time of the sweep, receiving chunks or not, and
    leaves the other entries, the pending continuations and the database
    unchanged. *)
Theorem C9_sweep_by_start_time (env : Env) (st : State) :
  let st' := (step env Tick st).1 in
  (∀ id, activeRecordings st' !! id =
         match activeRecordings st !! id with
         | Some r => if decide (startTime r < now env - 3600000) then None else Some r
         | None => None
         end)
  ∧ pending st' = pending st
  ∧ db st' = db st
  ∧ (∀ env' sock data r,
       activeRecordings st !! chunk_recordingId data = Some r →
       startTime <$> activeRecordings (audio_chunk env' sock data st).1
                       !! chunk_recordingId data = Some (startTime r)).
Proof.
  simpl. split; [intros id; apply cleanup_lookup|]. repeat split.
  intros env' sock data r Hr. unfold audio_chunk.
  destruct (String.eqb _ _); simpl; [by rewrite Hr|].
  by rewrite Hr, lookup_alter_eq, Hr.
Qed.

(** ** Failures inside the pipeline *)

Lemma error_update_emits env id e st :
  (resume_pipeline env (AwaitErrorUpdate id e) st).2 =
    [Broadcast (RecordingError id (message_or "Processing failed" e))]
  ∧ activeRecordings (resume_pipeline env (AwaitErrorUpdate id e) st).1 =
      delete id (activeRecordings st)
  ∧ pending (resume_pipeline env (AwaitErrorUpdate id e) st).1 = pending st.
Proof. simpl. by destruct e. Qed.

(** C5, refuted as stated: when the write of the result throws after both
    Gemini calls succeeded, no [recording-completed] is emitted; the client
    gets a [recording-error] with the message of the database exception. *)
Lemma C5_failed_write_suppresses_result :
  let out := (run write_fails (mkState ∅ {["abc" := row0]} [])).2 in
  List.filter is_completed out = []
  ∧ last out = Some (Broadcast (RecordingError "abc"
                        "Can't reach database server at `db.internal:5432`")).
Proof. vm_compute. done. Qed.

(** C5, amended.  When the write of the result fails after both Gemini
    calls succeeded, the turn emits nothing and enters the [catch] block,
    which tries to write the error markers; whether or not that second
    write succeeds, the next turn broadcasts exactly one [recording-error]
    with the reason of the first failure and removes the registry entry.
    Only a failure of the write of the error markers is logged without
    changing what the client receives. *)
Theorem C5_failed_write_reports_error
    (env env' : Env) (id t s : string) (d : Z) (st : State) (e : Thrown) :
  prisma_update (db_throws env) id (completed_fields t s d) (db st) = inl e →
  let n := length (pending st) in
  let st1 := (step env (Settle n) (spawn st (Pipeline (AwaitUpdate id t s d)))).1 in
  step env (Settle n) (spawn st (Pipeline (AwaitUpdate id t s d))) =
    (spawn st (Pipeline (AwaitErrorUpdate id e)), [])
  ∧ (step env' (Settle n) st1).2 = [Broadcast (RecordingError id (message_or "Processing failed" e))]
  ∧ activeRecordings (step env' (Settle n) st1).1 = delete id (activeRecordings st)
  ∧ pending (step env' (Settle n) st1).1 = pending st.
Proof.
  intros Hw n st1.
  assert (E : step env (Settle n) (spawn st (Pipeline (AwaitUpdate id t s d))) =
              (spawn st (Pipeline (AwaitErrorUpdate id e)), [])).
  { subst n. rewrite settle_spawned. simpl. by rewrite Hw. }
  split; [exact E|]. subst st1. rewrite E. cbn [fst]. subst n.
  rewrite settle_spawned. apply error_update_emits.
Qed.

(** C5 amended, on a write that the database refuses. *)
Lemma C5_failed_write_reports_error_witness :
  let st := mkState ∅ {["abc" := row0]} [] in
  let e := ErrorObj "Can't reach database server at `db.internal:5432`" in
  step (fails e 6000) (Settle 0) (spawn st (Pipeline (AwaitUpdate "abc" "text" "text" 2))) =
    (spawn st (Pipeline (AwaitErrorUpdate "abc" e)), []).
Proof.
  intros st e.
  destruct (C5_failed_write_reports_error (fails e 6000) (ok 7000) "abc" "text" "text" 2 st e)
    as [H _]; [reflexivity | exact H].
Defined.

(** C6, refuted as stated: the message of the exception thrown by the
    transcription is the [error] of the [recording-error] event, verbatim,
    and is stored, after a fixed prefix, in the summary column. *)
Lemma C6_raw_message_forwarded :
  let res := run transcribe_fails (mkState ∅ {["abc" := row0]} []) in
  last res.2 = Some (Broadcast (RecordingError "abc"
                       "[GoogleGenerativeAI Error]: fetch failed: 10.0.0.7:443"))
  ∧ (db res.1 !! "abc" ≫= summary) =
      Some "Processing failed: [GoogleGenerativeAI Error]: fetch failed: 10.0.0.7:443".
Proof. vm_compute. done. Qed.

(** C6, amended.  When the transcription or the summary throws, the turn
    emits nothing and enters the [catch] block with the thrown value.  The
    [recording-error] then broadcast carries the message of the exception
    as it is ("Processing failed" if the value is not an [Error]); the
    transcript column gets a fixed text and the summary column gets
    "Processing failed: " followed by the same message ("Unknown error" if
    the value is not an [Error]), with status COMPLETED. *)
Theorem C6_error_message_verbatim
    (env : Env) (id : string) (st : State) (e : Thrown) :
  ai env = inl e →
  (∀ blob d, resume_pipeline env (AwaitTranscribe id blob d) st =
             (spawn st (Pipeline (AwaitErrorUpdate id e)), []))
  ∧ (∀ t d, resume_pipeline env (AwaitSummary id t d) st =
            (spawn st (Pipeline (AwaitErrorUpdate id e)), []))
  ∧ (∀ env' st' m,
       (resume_pipeline env' (AwaitErrorUpdate id (ErrorObj m)) st').2 =
         [Broadcast (RecordingError id m)])
  ∧ (∀ env' st' row,
       db st' !! id = Some row → db_throws env' = None →
       db (resume_pipeline env' (AwaitErrorUpdate id e) st').1 !! id =
         Some (mkRecording COMPLETED
                 (Some "Error: Failed to transcribe audio. Please check server logs.")
                 (Some ("Processing failed: " ++ message_or "Unknown error" e))
                 (duration row)))
  ∧ (∀ env' st',
       (resume_pipeline env' (AwaitErrorUpdate id NonError) st').2 =
         [Broadcast (RecordingError id "Processing failed")]).
Proof.
  intros Hai. repeat split.
  - intros blob d. simpl. by rewrite Hai.
  - intros t d. simpl. by rewrite Hai.
  - intros env' st' row Hrow Hdb. simpl. unfold prisma_update.
    rewrite Hdb, Hrow. simpl. apply lookup_insert_eq.
Qed.

(** C6 amended, on a transcription that throws. *)
Lemma C6_error_message_verbatim_witness :
  let e := ErrorObj "[GoogleGenerativeAI Error]: fetch failed: 10.0.0.7:443" in
  resume_pipeline (fails e 4000) (AwaitTranscribe "abc" (mkBlob [x01] "audio/webm") 2) initial =
    (spawn initial (Pipeline (AwaitErrorUpdate "abc" e)), []).
Proof.
  intros e.
  destruct (C6_error_message_verbatim (fails e 4000) "abc" initial e) as [H _];
    [reflexivity | apply H].
Defined.

(** ** The scenario of three chunks and one completion *)

Lemma step_cons env inp tr st :
  run ((env, inp) :: tr) st =
  ((run tr (step env inp st).1).1, ((step env inp st).2 ++ (run tr (step env inp st).1).2)%list).
Proof.
  cbn [run]. destruct (step env inp st) as [st1 out1]. cbn [fst snd].
  by destruct (run tr st1) as [st2 out2].
Qed.

(** The next turn of the trace settles the continuation queued last. *)
Ltac settle_last :=
  rewrite step_cons, settle_spawned; cbn [resume resume_pipeline].

(** From [complete-recording] to [recording-completed], when the row
    exists, both database calls go through and both Gemini calls succeed. *)
Lemma pipeline_succeeds sock id st r row ec ef et es eu transcript summary :
  activeRecordings st !! id = Some r →
  chunks r ≠ [] →
  db st !! id = Some row →
  db_throws ef = None → db_throws eu = None →
  ai et = inr transcript → ai es = inr summary →
  let n := length (pending st) in
  let d := (now ef - startTime r) / 1000 in
  run [ (ec, CompleteRecording sock (mkRecordingData id));
        (ef, Settle n); (et, Settle n); (es, Settle n); (eu, Settle n) ] st =
    (mkState (delete id (activeRecordings st))
             (<[id := mkRecording COMPLETED (Some transcript) (Some summary) (Some d)]> (db st))
             (pending st),
     [ ToSocket sock (RecordingStatus id "PROCESSING");
       Broadcast (RecordingStatus id "PROCESSING");
       Broadcast (TranscriptionUpdate id transcript (iso et) true);
       Broadcast (RecordingCompleted id summary transcript d) ]).
Proof.
  intros Hr Hc Hrow Hf Hu Ht Hs n d.
  rewrite step_cons. cbn [step]. rewrite (complete_recording_starts sock id st r Hr Hc).
  cbn [fst snd]. subst n.
  settle_last. unfold prisma_findUnique. rewrite Hf, Hrow. cbn [fst snd].
  settle_last. rewrite Ht. cbn [fst snd].
  settle_last. rewrite Hs. cbn [fst snd].
  settle_last. unfold prisma_update. rewrite Hu, Hrow. cbn [fst snd run]. reflexivity.
Qed.

(** C3, refuted as stated: in the scenario the server emits three
    [recording-status] events with status PROCESSING, not one. *)
Lemma C3_three_processing_statuses :
  let out := (run (scenario "abc" "s1" [x01] [x02] [x03]
                     (ok 1000) (ok 2000) (ok 3000) (ok 4000)
                     (ok 5000) (ok 6000) (ok 7000) (ok 8000) 0)
                  (mkState ∅ {["abc" := row0]} [])).2 in
  List.filter is_status_processing out =
    [ ToSocket "s1" (RecordingStatus "abc" "PROCESSING");
      ToSocket "s1" (RecordingStatus "abc" "PROCESSING");
      Broadcast (RecordingStatus "abc" "PROCESSING") ]
  ∧ length (List.filter is_completed out) = 1%nat.
Proof. vm_compute. done. Qed.

(** C3, amended.  For a session that the registry does not hold yet and
    whose row exists, three chunks ([isFinal] false, false, true) and one
    [complete-recording], with both database calls and both Gemini calls
    succeeding, produce, in this order: three acknowledgements, a
    PROCESSING status sent to the socket by the final chunk, a PROCESSING
    status sent to the socket by the completion handler, a PROCESSING status
    broadcast by the pipeline, a broadcast transcription update, and exactly
    one broadcast [recording-completed] carrying the transcript and the
    summary that Gemini returned and the whole seconds between the first
    chunk and the database read, which are not negative when the clock did
    not go back.  Afterwards the registry has no entry for the session. *)
Theorem C3_scenario_events
    (S sock : string) (c1 c2 c3 : ArrayBuffer)
    (e1 e2 e3 ec ef et es eu : Env) (st : State) (row : Recording)
    (transcript summary : string) :
  S ≠ "" →
  activeRecordings st !! S = None →
  db st !! S = Some row →
  db_throws ef = None → db_throws eu = None →
  ai et = inr transcript → ai es = inr summary →
  (now e1 ≤ now ef)%Z →
  let d := (now ef - now e1) / 1000 in
  let res := run (scenario S sock c1 c2 c3 e1 e2 e3 ec ef et es eu (length (pending st))) st in
  res.2 =
    [ ToSocket sock (AudioChunkReceived S true);
      ToSocket sock (AudioChunkReceived S true);
      ToSocket sock (AudioChunkReceived S true);
      ToSocket sock (RecordingStatus S "PROCESSING");
      ToSocket sock (RecordingStatus S "PROCESSING");
      Broadcast (RecordingStatus S "PROCESSING");
      Broadcast (TranscriptionUpdate S transcript (iso et) true);
      Broadcast (RecordingCompleted S summary transcript d) ]
  ∧ (0 ≤ d)%Z
  ∧ activeRecordings res.1 !! S = None
  ∧ db res.1 !! S = Some (mkRecording COMPLETED (Some transcript) (Some summary) (Some d))
  ∧ pending res.1 = pending st.
Proof.
  intros HS Hnone Hrow Hf Hu Ht Hs Hclock d res.
  set (r := mkLiveSession sock (now e1)
              [mkBlob c1 "audio/webm"; mkBlob c2 "audio/webm"; mkBlob c3 "audio/webm"] false).
  set (st3 := (run (chunk_sequence S [(e1, sock, c1); (e2, sock, c2)] (e3, sock, c3)) st).1).
  assert (Hout : (run (chunk_sequence S [(e1, sock, c1); (e2, sock, c2)] (e3, sock, c3)) st).2 =
                 [ ToSocket sock (AudioChunkReceived S true);
                   ToSocket sock (AudioChunkReceived S true);
                   ToSocket sock (AudioChunkReceived S true);
                   ToSocket sock (RecordingStatus S "PROCESSING") ]).
  { unfold chunk_sequence, chunk_turn. cbn [map app fst snd run step].
    unfold audio_chunk. cbn [chunk_recordingId]. rewrite (eqb_empty_false _ HS).
    reflexivity. }
  assert (H3 : activeRecordings st3 !! S = Some r ∧ db st3 = db st ∧ pending st3 = pending st).
  { subst st3. unfold chunk_sequence, chunk_turn. cbn [map app fst snd].
    rewrite !step_cons. cbn [run fst snd step].
    set (s1 := (audio_chunk e1 sock (mkAudioChunkData S c1 false) st).1).
    set (s2 := (audio_chunk e2 sock (mkAudioChunkData S c2 false) s1).1).
    destruct (audio_chunk_frame e1 sock (mkAudioChunkData S c1 false) st HS)
      as (L1 & D1 & P1).
    destruct (audio_chunk_frame e2 sock (mkAudioChunkData S c2 false) s1 HS)
      as (L2 & D2 & P2).
    destruct (audio_chunk_frame e3 sock (mkAudioChunkData S c3 true) s2 HS)
      as (L3 & D3 & P3).
    fold s1 in L1, D1, P1. fold s2 in L2, D2, P2.
    cbn [chunk_recordingId chunk] in *.
    rewrite L3, L2, L1, Hnone, D3, D2, D1, P3, P2, P1. done. }
  destruct H3 as (Hr & Hdb & Hp).
  assert (Hd : (0 ≤ d)%Z) by (subst d; apply Z.div_pos; lia).
  subst res. unfold scenario. rewrite run_app. fold st3. rewrite Hout. rewrite <- Hp.
  rewrite (pipeline_succeeds sock S st3 r row ec ef et es eu transcript summary);
    [|done|done|by rewrite Hdb|done..].
  cbn [fst snd activeRecordings db pending startTime r].
  split; [reflexivity|]. split; [exact Hd|].
  split; [apply lookup_delete_eq|]. split; [apply lookup_insert_eq|done].
Qed.

(** C3 amended, on the scenario of the specification. *)
Lemma C3_scenario_events_witness :
  let res := run (scenario "abc" "s1" [x01] [x02] [x03]
                    (ok 1000) (ok 2000) (ok 3000) (ok 4000)
                    (ok 5000) (ok 6000) (ok 7000) (ok 8000) 0)
                 (mkState ∅ {["abc" := row0]} []) in
  activeRecordings res.1 !! "abc" = None
  ∧ db res.1 !! "abc" = Some (mkRecording COMPLETED (Some "text") (Some "text") (Some 4)).
Proof.
  intros res.
  destruct (C3_scenario_events "abc" "s1" [x01] [x02] [x03]
              (ok 1000) (ok 2000) (ok 3000) (ok 4000)
              (ok 5000) (ok 6000) (ok 7000) (ok 8000)
              (mkState ∅ {["abc" := row0]} []) row0 "text" "text")
    as (_ & _ & Hreg & Hrow & _);
    [done | reflexivity | reflexivity | reflexivity | reflexivity
     | reflexivity | reflexivity | simpl; lia | ].
  split; [exact Hreg | exact Hrow].
Defined.

(** * Further properties of the server *)

(** ** An invariant of the registry *)

Lemma step_buffers_nonempty env inp st :
  buffers_nonempty st → buffers_nonempty (step env inp st).1.
Proof.
  intros Hinv id r. destruct inp as [sock data|sock data|sock data|sock data|sock| |i]; simpl.
  - unfold audio_chunk. destruct (String.eqb _ _); simpl; [apply Hinv|].
    destruct (decide (chunk_recordingId data = id)) as [->|Hne].
    + rewrite lookup_alter_eq. intros Hl.
      destruct (_ !! id) as [r0|]; simplify_eq/=. by destruct (chunks r0).
    + rewrite lookup_alter_ne by done.
      destruct (activeRecordings st !! chunk_recordingId data);
        [|rewrite lookup_insert_ne by done]; apply Hinv.
  - unfold complete_recording, processRecordingWithGemini.
    destruct (activeRecordings st !! recordingId data) as [r0|]; [|apply Hinv].
    destruct (chunks r0); simpl.
    + intros [_ Hl]%lookup_delete_Some. by apply Hinv in Hl.
    + apply Hinv.
  - intros Hl. apply lookup_alter_Some in Hl as [(_ & r0 & Hr0 & ->)|[_ Hl]];
      [simpl|]; by eapply Hinv.
  - intros Hl. apply lookup_alter_Some in Hl as [(_ & r0 & Hr0 & ->)|[_ Hl]];
      [simpl|]; by eapply Hinv.
  - intros [Hl _]%map_lookup_filter_Some. by eapply Hinv.
  - intros [Hl _]%map_lookup_filter_Some. by eapply Hinv.
  - destruct (pending st !! i) as [[k|s0 i0|s0 i0]|]; simpl; [| | |apply Hinv].
    + destruct k; simpl.
      * destruct (prisma_findUnique _ _ _) as [|[|]]; apply Hinv.
      * destruct (ai env); apply Hinv.
      * destruct (ai env); apply Hinv.
      * destruct (prisma_update _ _ _ _); simpl; [apply Hinv|].
        intros [_ Hl]%lookup_delete_Some. by eapply Hinv.
      * intros [_ Hl]%lookup_delete_Some. by eapply Hinv.
    + unfold resume_status_update. destruct (prisma_update _ _ _ _); apply Hinv.
    + unfold resume_status_update. destruct (prisma_update _ _ _ _); apply Hinv.
Qed.

(** X1. If every buffered session has at least one chunk, this still holds
    after any sequence of turns; in such a state [complete-recording] never
    answers "No audio data received for processing". *)
Theorem X1_buffers_never_empty (tr : list (Env * Input)) (st : State) :
  buffers_nonempty st →
  buffers_nonempty (run tr st).1
  ∧ ∀ sock data,
      ToSocket sock (RecordingError (recordingId data)
                       "No audio data received for processing")
      ∉ (complete_recording sock data (run tr st).1).2.
Proof.
  intros Hinv.
  assert (Hrun : buffers_nonempty (run tr st).1).
  { revert st Hinv. induction tr as [|[env inp] tr IH]; intros st Hinv; [done|].
    rewrite step_cons. cbn [fst]. apply IH. by apply step_buffers_nonempty. }
  split; [exact Hrun|]. intros sock data. unfold complete_recording.
  destruct (activeRecordings (run tr st).1 !! recordingId data) as [r|] eqn:E.
  - pose proof (Hrun _ _ E) as Hne. destruct (chunks r) as [|b bs] eqn:Ec; [done|].
    simpl. unfold processRecordingWithGemini. rewrite E, Ec. simpl.
    rewrite !elem_of_cons, elem_of_nil. intros [?|[?|[]]]; discriminate.
  - simpl. rewrite list_elem_of_singleton. intros ?; simplify_eq.
Qed.

(** X1 from the empty server. *)
Lemma X1_buffers_never_empty_witness : buffers_nonempty (run twice initial).1.
Proof.
  apply (X1_buffers_never_empty twice initial). intros id r Hl.
  change (activeRecordings initial) with (∅ : gmap string LiveSession) in Hl.
  by rewrite lookup_empty in Hl.
Defined.

(** ** Every pipeline ends, with one message *)

Lemma settle_idle env st : step env (Settle (length (pending st))) st = (st, []).
Proof. simpl. by rewrite lookup_ge_None_2. Qed.

Lemma run_settles_idle envs st n :
  n = length (pending st) → run (settles n envs) st = (st, []).
Proof.
  intros ->. induction envs as [|e envs IH]; [done|].
  unfold settles in *. cbn [map]. rewrite step_cons, settle_idle. cbn [fst snd].
  by rewrite IH.
Qed.

Lemma resume_pipeline_progress env k st :
  (∃ k', resume_pipeline env k st = (spawn st (Pipeline k'), (resume_pipeline env k st).2)
         ∧ (rank k' < rank k)%nat
         ∧ cont_id k' = cont_id k
         ∧ List.filter is_terminal (resume_pipeline env k st).2 = [])
  ∨ (pending (resume_pipeline env k st).1 = pending st
     ∧ length (List.filter is_terminal (resume_pipeline env k st).2) = 1%nat
     ∧ activeRecordings (resume_pipeline env k st).1 !! cont_id k = None).
Proof.
  destruct k as [id t0 b|id b d|id t d|id t s d|id e]; simpl.
  - left. destruct (prisma_findUnique _ _ _) as [|[|]];
      eexists; (split; [reflexivity|]); simpl; repeat split; lia.
  - left. destruct (ai env); eexists; (split; [reflexivity|]); simpl; repeat split; lia.
  - left. destruct (ai env); eexists; (split; [reflexivity|]); simpl; repeat split; lia.
  - destruct (prisma_update _ _ _ _).
    + left. eexists; (split; [reflexivity|]); simpl; repeat split; lia.
    + right. simpl. repeat split. apply lookup_delete_eq.
  - right. repeat split. apply lookup_delete_eq.
Qed.

(** X2. Whatever the database and Gemini answer, a pending pipeline ends
    within the awaits it has left (five at most): once that many of its
    awaits have settled it has broadcast exactly one closing message, a
    [recording-completed] or a [recording-error], it has removed the
    registry entry of its session, and nothing of it is pending. *)
Theorem X2_pipeline_ends_once (envs : list Env) (k : PipelineCont) (st : State) :
  (rank k ≤ length envs)%nat →
  let res := run (settles (length (pending st)) envs) (spawn st (Pipeline k)) in
  length (List.filter is_terminal res.2) = 1%nat
  ∧ pending res.1 = pending st
  ∧ activeRecordings res.1 !! cont_id k = None.
Proof.
  revert k. induction envs as [|e envs IH]; intros k Hrank; simpl in Hrank.
  { destruct k; simpl in Hrank; lia. }
  intros res. subst res. unfold settles in *. cbn [map].
  rewrite step_cons, settle_spawned. cbn [resume].
  destruct (resume_pipeline_progress e k st) as [(k' & E & Hlt & Hid & Hnil)|(Hp & Hone & Hgone)].
  - rewrite E. cbn [fst snd]. rewrite List.filter_app, Hnil, <- Hid. simpl.
    apply IH. lia.
  - pose proof (run_settles_idle envs (resume_pipeline e k st).1 (length (pending st))) as Hidle.
    unfold settles in Hidle. rewrite Hidle by (by rewrite Hp).
    cbn [fst snd]. by rewrite app_nil_r.
Qed.

(** X2 on a pipeline that has just started, with a database that is down. *)
Lemma X2_pipeline_ends_once_witness :
  let e := fails (ErrorObj "Can't reach database server") 0 in
  let k := AwaitFindUnique "abc" 0 (mkBlob [x01] "audio/webm") in
  length (List.filter is_terminal
            (run (settles 0 [e; e; e; e; e]) (spawn initial (Pipeline k))).2) = 1%nat.
Proof.
  intros e k.
  destruct (X2_pipeline_ends_once [e; e; e; e; e] k initial) as [H _]; [simpl; lia|].
  exact H.
Defined.

(** ** Disconnecting *)

Lemma disconnect_lookup sock st id :
  activeRecordings (disconnect sock st).1 !! id =
  match activeRecordings st !! id with
  | Some r => if decide (socketId r = sock) then None else Some r
  | None => None
  end.
Proof.
  simpl. rewrite map_lookup_filter.
  destruct (activeRecordings st !! id) as [r|]; simpl; [|done].
  destruct (decide (socketId r = sock)) as [Heq|Hne].
  - rewrite option_guard_False; [done|]. simpl. tauto.
  - by rewrite option_guard_True.
Qed.

(** X3. Once the owner of a buffered session has disconnected, a
    [complete-recording] for that session, from whatever socket, is answered
    with "Recording session not found. No audio chunks received.": no
    pipeline is queued, the buffered audio is gone and the database row
    keeps the status it had.  The pipelines that were pending stay pending. *)
Theorem X3_disconnect_discards_session
    (e1 e2 : Env) (sock id : string) (st : State) (r : LiveSession) :
  activeRecordings st !! id = Some r →
  let res := run [ (e1, Disconnect (socketId r));
                   (e2, CompleteRecording sock (mkRecordingData id)) ] st in
  res.2 = [ToSocket sock (RecordingError id
                            "Recording session not found. No audio chunks received.")]
  ∧ activeRecordings res.1 !! id = None
  ∧ db res.1 = db st
  ∧ pending res.1 = pending st.
Proof.
  intros Hr res. subst res. rewrite step_cons. cbn [fst snd step]. rewrite run_one.
  cbn [fst snd step].
  assert (Hgone : activeRecordings (disconnect (socketId r) st).1 !! id = None).
  { rewrite disconnect_lookup, Hr. by rewrite decide_True. }
  unfold complete_recording. cbn [recordingId]. rewrite Hgone. done.
Qed.

(** X3 on the session of "s1". *)
Lemma X3_disconnect_discards_session_witness :
  (run [ (ok 1500, Disconnect "s1");
         (ok 2000, CompleteRecording "s1" (mkRecordingData "abc")) ]
       (run (take 1 twice) initial).1).2 =
  [ToSocket "s1" (RecordingError "abc"
                    "Recording session not found. No audio chunks received.")].
Proof.
  destruct (X3_disconnect_discards_session (ok 1500) (ok 2000) "s1" "abc"
              (run (take 1 twice) initial).1
              (mkLiveSession "s1" 1000 [mkBlob [x01] "audio/webm"] false))
    as [H _]; [reflexivity | exact H].
Defined.

(** X4. A chunk for a session that is already buffered is appended whoever
    sends it, and leaves the owner, the start time and the pause flag of the
    session as they were.  So the session outlives the disconnect of a
    sender that is not its owner, and the disconnect of the owner discards
    the chunks of every sender. *)
Theorem X4_owner_is_first_sender
    (env env' : Env) (sock : string) (data : AudioChunkData) (st : State)
    (r : LiveSession) :
  chunk_recordingId data ≠ "" →
  activeRecordings st !! chunk_recordingId data = Some r →
  let id := chunk_recordingId data in
  let st1 := (step env (AudioChunk sock data) st).1 in
  activeRecordings st1 !! id =
    Some (mkLiveSession (socketId r) (startTime r)
            (chunks r ++ [mkBlob (chunk data) "audio/webm"]) (isPaused r))
  ∧ (socketId r ≠ sock →
     activeRecordings (step env' (Disconnect sock) st1).1 !! id = activeRecordings st1 !! id)
  ∧ activeRecordings (step env' (Disconnect (socketId r)) st1).1 !! id = None.
Proof.
  intros Hid Hr id st1.
  assert (H1 : activeRecordings st1 !! id = Some (push_chunk (mkBlob (chunk data) "audio/webm") r)).
  { subst st1 id. simpl. by rewrite (audio_chunk_lookup _ _ _ _ Hid), Hr. }
  split; [exact H1|].
  cbn [step]. split.
  - intros Hne. rewrite disconnect_lookup, H1. simpl. by rewrite decide_False.
  - rewrite disconnect_lookup, H1. simpl. by rewrite decide_True.
Qed.

(** X4 on a session opened by "s1" that "s2" adds a chunk to. *)
Lemma X4_owner_is_first_sender_witness :
  let st := (run (take 1 twice) initial).1 in
  let data := mkAudioChunkData "abc" [x02] false in
  activeRecordings (step (ok 1500) (Disconnect "s1")
                      (step (ok 1200) (AudioChunk "s2" data) st).1).1 !! "abc" = None.
Proof.
  intros st data.
  destruct (X4_owner_is_first_sender (ok 1200) (ok 1500) "s2" data st
              (mkLiveSession "s1" 1000 [mkBlob [x01] "audio/webm"] false))
    as (_ & _ & H); [done | reflexivity | exact H].
Defined.

(** ** The pause flag *)

Lemma forget_paused_lookup m m' :
  forget_paused m = forget_paused m' ↔
  ∀ j, set_isPaused false <$> m !! j = set_isPaused false <$> m' !! j.
Proof.
  unfold forget_paused. split.
  - intros H j. by rewrite <- !lookup_fmap, H.
  - intros H. apply map_eq. intros j. by rewrite !lookup_fmap.
Qed.

Lemma same_but_paused r r' :
  set_isPaused false r = set_isPaused false r' ↔
  socketId r = socketId r' ∧ startTime r = startTime r' ∧ chunks r = chunks r'.
Proof.
  destruct r, r'. unfold set_isPaused. simpl. split.
  - intros H. by simplify_eq.
  - intros (-> & -> & ->). done.
Qed.

Lemma forget_paused_alter g id m m' :
  (∀ r r', set_isPaused false r = set_isPaused false r' →
           set_isPaused false (g r) = set_isPaused false (g r')) →
  forget_paused m = forget_paused m' →
  forget_paused (alter g id m) = forget_paused (alter g id m').
Proof.
  intros Hg H. apply forget_paused_lookup. intros j.
  pose proof (proj1 (forget_paused_lookup m m') H j) as Hj.
  destruct (decide (id = j)) as [->|Hne].
  - rewrite !lookup_alter_eq.
    destruct (m !! j) as [r|], (m' !! j) as [r'|];
      cbn [fmap option_fmap option_map] in *; try done.
    f_equal. apply Hg. congruence.
  - by rewrite !lookup_alter_ne.
Qed.

Lemma forget_paused_insert id r m m' :
  forget_paused m = forget_paused m' →
  forget_paused (<[id:=r]> m) = forget_paused (<[id:=r]> m').
Proof. unfold forget_paused. intros H. by rewrite !fmap_insert, H. Qed.

Lemma forget_paused_delete id m m' :
  forget_paused m = forget_paused m' →
  forget_paused (delete id m) = forget_paused (delete id m').
Proof. unfold forget_paused. intros H. by rewrite !fmap_delete, H. Qed.

Lemma forget_paused_filter (P : string * LiveSession → Prop)
    `{!∀ x, Decision (P x)} m m' :
  (∀ j r r', set_isPaused false r = set_isPaused false r' → P (j, r) ↔ P (j, r')) →
  forget_paused m = forget_paused m' →
  forget_paused (filter P m) = forget_paused (filter P m').
Proof.
  intros HP Hm. apply forget_paused_lookup. intros j.
  pose proof (proj1 (forget_paused_lookup m m') Hm j) as Hj.
  rewrite !map_lookup_filter.
  destruct (m !! j) as [r|], (m' !! j) as [r'|];
    cbn [fmap option_fmap option_map mbind option_bind] in *; try done.
  assert (Hc : set_isPaused false r = set_isPaused false r') by congruence.
  pose proof (HP j r r' Hc) as Hiff.
  destruct (decide (P (j, r))) as [Hp|Hp].
  - rewrite !option_guard_True by tauto. simpl. by f_equal.
  - rewrite !option_guard_False by tauto. done.
Qed.

Lemma push_chunk_same_but_paused b r r' :
  set_isPaused false r = set_isPaused false r' →
  set_isPaused false (push_chunk b r) = set_isPaused false (push_chunk b r').
Proof.
  rewrite !same_but_paused. simpl. by intros (-> & -> & ->).
Qed.

Lemma set_isPaused_same_but_paused b r r' :
  set_isPaused false r = set_isPaused false r' →
  set_isPaused false (set_isPaused b r) = set_isPaused false (set_isPaused b r').
Proof. rewrite !same_but_paused. simpl. by intros (-> & -> & ->). Qed.

(** X5. The [isPaused] flag is written by pause and resume and read by
    nothing: two servers that differ only in pause flags answer every turn
    with the same messages, the same database and the same pending awaits,
    and their registries still differ only in pause flags afterwards.  In
    particular chunks are buffered while a session is paused. *)
Theorem X5_pause_flag_is_inert (env : Env) (inp : Input) (st st' : State) :
  forget_paused (activeRecordings st) = forget_paused (activeRecordings st') →
  db st = db st' →
  pending st = pending st' →
  (step env inp st).2 = (step env inp st').2
  ∧ forget_paused (activeRecordings (step env inp st).1) =
    forget_paused (activeRecordings (step env inp st').1)
  ∧ db (step env inp st).1 = db (step env inp st').1
  ∧ pending (step env inp st).1 = pending (step env inp st').1.
Proof.
  intros Hreg Hdb Hp.
  pose proof (proj1 (forget_paused_lookup _ _) Hreg) as Hl.
  destruct inp as [sock data|sock data|sock data|sock data|sock| |i]; cbn [step].
  - unfold audio_chunk. destruct (String.eqb _ _); simpl; [done|].
    repeat split; try done.
    specialize (Hl (chunk_recordingId data)).
    destruct (activeRecordings st !! chunk_recordingId data) as [r|],
             (activeRecordings st' !! chunk_recordingId data) as [r'|];
      cbn [fmap option_fmap option_map] in Hl; try done.
    + apply forget_paused_alter; [apply push_chunk_same_but_paused | done].
    + apply forget_paused_alter; [apply push_chunk_same_but_paused |].
      by apply forget_paused_insert.
  - unfold complete_recording, processRecordingWithGemini.
    specialize (Hl (recordingId data)).
    destruct (activeRecordings st !! recordingId data) as [r|],
             (activeRecordings st' !! recordingId data) as [r'|];
      cbn [fmap option_fmap option_map] in Hl; try done.
    assert (Hc : set_isPaused false r = set_isPaused false r') by congruence.
    apply same_but_paused in Hc as (_ & Hs & Hc). rewrite <- Hc, <- Hs.
    destruct (chunks r); simpl.
    + repeat split; try done. by apply forget_paused_delete.
    + repeat split; try done. by rewrite Hp.
  - simpl. repeat split; try done; [|by rewrite Hp].
    apply forget_paused_alter; [apply set_isPaused_same_but_paused | done].
  - simpl. repeat split; try done; [|by rewrite Hp].
    apply forget_paused_alter; [apply set_isPaused_same_but_paused | done].
  - simpl. repeat split; try done.
    apply forget_paused_filter; [|done].
    intros j r r' (Hs & _ & _)%same_but_paused. simpl. by rewrite Hs.
  - simpl. repeat split; try done.
    apply forget_paused_filter; [|done].
    intros j r r' (_ & Hs & _)%same_but_paused. simpl. by rewrite Hs.
  - rewrite <- Hp. destruct (pending st !! i) as [[k|s0 i0|s0 i0]|]; [| | |done].
    + cbn [resume]. destruct k; simpl; rewrite <- ?Hdb.
      * destruct (prisma_findUnique _ _ _) as [|[|]]; simpl; by rewrite ?Hp.
      * destruct (ai env); simpl; by rewrite ?Hp.
      * destruct (ai env); simpl; by rewrite ?Hp.
      * destruct (prisma_update _ _ _ _); simpl; [by rewrite ?Hp|].
        repeat split; try done. by apply forget_paused_delete.
      * repeat split; try done. by apply forget_paused_delete.
    + simpl. unfold resume_status_update. rewrite <- Hdb.
      destruct (prisma_update _ _ _ _); simpl; by rewrite ?Hp.
    + simpl. unfold resume_status_update. rewrite <- Hdb.
      destruct (prisma_update _ _ _ _); simpl; by rewrite ?Hp.
Qed.

(** X5 on a paused and an unpaused copy of one session. *)
Lemma X5_pause_flag_is_inert_witness :
  let r := mkLiveSession "s1" 1000 [mkBlob [x01] "audio/webm"] in
  let data := mkAudioChunkData "abc" [x02] false in
  (step (ok 2000) (AudioChunk "s1" data) (mkState {["abc" := r true]} ∅ [])).2 =
  (step (ok 2000) (AudioChunk "s1" data) (mkState {["abc" := r false]} ∅ [])).2.
Proof.
  intros r data.
  destruct (X5_pause_flag_is_inert (ok 2000) (AudioChunk "s1" data)
              (mkState {["abc" := r true]} ∅ []) (mkState {["abc" := r false]} ∅ []))
    as [H _]; [|reflexivity|reflexivity|exact H].
  unfold forget_paused. simpl. by rewrite !map_fmap_singleton.
Defined.

(** ** Pause and resume *)

Lemma settle_spawned_at env k st n :
  n = length (pending st) → step env (Settle n) (spawn st k) = resume env k st.
Proof. intros ->. apply settle_spawned. Qed.

(** X6. On a buffered session whose row exists, with both writes going
    through, [pause-recording] sets the flag and the status PAUSED, and a
    following [resume-recording] clears the flag and sets the status
    RECORDING: the socket gets the two statuses in this order, the chunks,
    owner and start time of the session and the other columns of the row
    are as before. *)
Theorem X6_pause_then_resume
    (sock id : string) (st : State) (r : LiveSession) (row : Recording)
    (e1 e2 e3 e4 : Env) :
  activeRecordings st !! id = Some r →
  db st !! id = Some row →
  db_throws e2 = None → db_throws e4 = None →
  let n := length (pending st) in
  let mid := run [ (e1, PauseRecording sock (mkRecordingData id)); (e2, Settle n) ] st in
  let res := run [ (e3, ResumeRecording sock (mkRecordingData id)); (e4, Settle n) ] mid.1 in
  mid.2 = [ToSocket sock (RecordingStatus id "PAUSED")]
  ∧ activeRecordings mid.1 !! id = Some (set_isPaused true r)
  ∧ db mid.1 !! id = Some (set_status PAUSED row)
  ∧ res.2 = [ToSocket sock (RecordingStatus id "RECORDING")]
  ∧ activeRecordings res.1 !! id = Some (set_isPaused false r)
  ∧ db res.1 !! id = Some (set_status RECORDING row)
  ∧ pending res.1 = pending st.
Proof.
  intros Hr Hrow H2 H4 n mid res.
  set (st1 := set_activeRecordings st (alter (set_isPaused true) id (activeRecordings st))).
  assert (Emid : mid = (set_db st1 (<[id := set_status PAUSED row]> (db st)),
                        [ToSocket sock (RecordingStatus id "PAUSED")])).
  { subst mid. rewrite step_cons. cbn [step pause_recording fst snd recordingId].
    rewrite step_cons. fold st1. rewrite settle_spawned_at by done.
    cbn [resume]. unfold resume_status_update, prisma_update.
    rewrite H2. cbn [db st1 set_activeRecordings]. rewrite Hrow. reflexivity. }
  subst res. rewrite Emid. cbn [fst snd].
  set (st2 := set_db st1 (<[id := set_status PAUSED row]> (db st))).
  set (st3 := set_activeRecordings st2 (alter (set_isPaused false) id (activeRecordings st2))).
  rewrite step_cons. cbn [step resume_recording fst snd recordingId].
  rewrite step_cons. fold st3. rewrite settle_spawned_at by done.
  cbn [resume]. unfold resume_status_update, prisma_update.
  rewrite H4. cbn [db st3 st2 st1 set_db set_activeRecordings].
  rewrite lookup_insert_eq. cbn [fst snd run db activeRecordings pending set_db].
  repeat split.
  - subst st2 st1. simpl. by rewrite lookup_alter_eq, Hr.
  - subst st3 st2 st1. simpl. rewrite !lookup_alter_eq, Hr. by destruct r.
  - by rewrite lookup_insert_eq.
Qed.

(** X6 on a session with one chunk. *)
Lemma X6_pause_then_resume_witness :
  let st := (run (take 1 twice) (mkState ∅ {["abc" := row0]} [])).1 in
  (run [ (ok 1100, PauseRecording "s1" (mkRecordingData "abc")); (ok 1200, Settle 0) ] st).2
  = [ToSocket "s1" (RecordingStatus "abc" "PAUSED")].
Proof.
  intros st.
  destruct (X6_pause_then_resume "s1" "abc" st
              (mkLiveSession "s1" 1000 [mkBlob [x01] "audio/webm"] false) row0
              (ok 1100) (ok 1200) (ok 1300) (ok 1400)) as [H _];
    [reflexivity | reflexivity | reflexivity | reflexivity | exact H].
Defined.

(** X7. When the write of a pause or resume fails, because the database
    throws or because no row has the id, the socket gets no message at all,
    neither a status nor an error, and the database is unchanged; the flag
    in the registry has been set all the same. *)
Theorem X7_failed_status_write_is_silent
    (sock id : string) (st : State) (e1 e2 : Env) (paused : bool) (err : Thrown) :
  prisma_update (db_throws e2) id
    (set_status (if paused then PAUSED else RECORDING)) (db st) = inl err →
  let inp := if paused then PauseRecording sock (mkRecordingData id)
             else ResumeRecording sock (mkRecordingData id) in
  let res := run [ (e1, inp); (e2, Settle (length (pending st))) ] st in
  res.2 = []
  ∧ db res.1 = db st
  ∧ pending res.1 = pending st
  ∧ activeRecordings res.1 !! id = set_isPaused paused <$> activeRecordings st !! id.
Proof.
  intros Hw inp res. subst res inp.
  destruct paused; rewrite step_cons;
    cbn [step pause_recording resume_recording fst snd recordingId];
    rewrite step_cons, settle_spawned_at by done;
    cbn [resume]; unfold resume_status_update;
    cbn [db set_activeRecordings]; rewrite Hw; cbn [fst snd run];
    (split; [done|]); (split; [done|]); (split; [done|]);
    cbn [activeRecordings set_activeRecordings]; by rewrite lookup_alter_eq.
Qed.

(** X7 on a pause for an id that has no row. *)
Lemma X7_failed_status_write_is_silent_witness :
  (run [ (ok 0, PauseRecording "s1" (mkRecordingData "abc")); (ok 1, Settle 0) ] initial).2 = [].
Proof.
  destruct (X7_failed_status_write_is_silent "s1" "abc" initial (ok 0) (ok 1) true
              (ErrorObj record_not_found)) as [H _]; [reflexivity | exact H].
Defined.

(** ** What the server writes to the database *)

Lemma row_evolves_refl o : row_evolves o o.
Proof. destruct o; simpl; auto. Qed.

Lemma row_evolves_trans o1 o2 o3 :
  row_evolves o1 o2 → row_evolves o2 o3 → row_evolves o1 o3.
Proof.
  destruct o1, o2, o3; simpl; try tauto. intros [H1|H1] [H2|H2]; try tauto.
  - left. congruence.
  - right. by rewrite H2.
Qed.

Lemma prisma_update_evolves o id0 f d id :
  (∀ row, written (status (f row))) →
  row_evolves (d !! id)
    (match prisma_update o id0 f d with inl _ => d | inr d' => d' end !! id).
Proof.
  intros Hf. unfold prisma_update. destruct o; [apply row_evolves_refl|].
  destruct (d !! id0) as [r|] eqn:E; [|apply row_evolves_refl].
  destruct (decide (id0 = id)) as [->|Hne].
  - rewrite lookup_insert_eq, E. simpl. right. apply Hf.
  - rewrite lookup_insert_ne by done. apply row_evolves_refl.
Qed.

Lemma step_row_evolves env inp st id :
  row_evolves (db st !! id) (db (step env inp st).1 !! id).
Proof.
  destruct inp as [sock data|sock data|sock data|sock data|sock| |i];
    try (rewrite step_keeps_db by done; apply row_evolves_refl).
  simpl. destruct (pending st !! i) as [[k|s0 i0|s0 i0]|]; [| | |apply row_evolves_refl].
  - destruct k as [i0 t0 b|i0 b d|i0 t d|i0 t s d|i0 e]; simpl.
    + destruct (prisma_findUnique _ _ _) as [|[|]]; apply row_evolves_refl.
    + destruct (ai env); apply row_evolves_refl.
    + destruct (ai env); apply row_evolves_refl.
    + pose proof (prisma_update_evolves (db_throws env) i0 (completed_fields t s d)
                    (db st) id) as H.
      destruct (prisma_update _ _ _ _); simpl; [apply row_evolves_refl|].
      apply H. intros row. right. by right.
    + apply (prisma_update_evolves (db_throws env) i0 (error_markers e)).
      intros row. right. by right.
  - simpl. unfold resume_status_update.
    pose proof (prisma_update_evolves (db_throws env) i0 (set_status PAUSED) (db st) id) as H.
    destruct (prisma_update _ _ _ _); simpl; [apply row_evolves_refl|].
    apply H. intros row. right. by left.
  - simpl. unfold resume_status_update.
    pose proof (prisma_update_evolves (db_throws env) i0 (set_status RECORDING) (db st) id) as H.
    destruct (prisma_update _ _ _ _); simpl; [apply row_evolves_refl|].
    apply H. intros row. by left.
Qed.

Lemma run_row_evolves tr st id :
  row_evolves (db st !! id) (db (run tr st).1 !! id).
Proof.
  revert st. induction tr as [|[env inp] tr IH]; intros st; [apply row_evolves_refl|].
  rewrite step_cons. cbn [fst].
  eapply row_evolves_trans; [apply step_row_evolves | apply IH].
Qed.

(** X8. The server never creates and never deletes a row: after any
    sequence of turns the database has a row for an id exactly when it had
    one before. *)
Theorem X8_rows_neither_created_nor_deleted
    (tr : list (Env * Input)) (st : State) (id : string) :
  db (run tr st).1 !! id = None ↔ db st !! id = None.
Proof.
  pose proof (run_row_evolves tr st id) as H.
  destruct (db st !! id), (db (run tr st).1 !! id); simpl in H; naive_solver.
Qed.

(** X9. The server writes only the statuses RECORDING, PAUSED and
    COMPLETED: after any sequence of turns the status of a row is the one
    it had before or one of these three.  PROCESSING is announced to the
    clients but never stored, and a failed pipeline stores COMPLETED, not
    FAILED. *)
Theorem X9_statuses_written
    (tr : list (Env * Input)) (st : State) (id : string) (row' : Recording) :
  db (run tr st).1 !! id = Some row' →
  ∃ row, db st !! id = Some row
         ∧ (status row' = status row
            ∨ status row' = RECORDING ∨ status row' = PAUSED ∨ status row' = COMPLETED).
Proof.
  intros H'. pose proof (run_row_evolves tr st id) as H. rewrite H' in H.
  destruct (db st !! id) as [row|]; simpl in H; [|done]. by exists row.
Qed.

(** X9 on a pipeline whose transcription fails. *)
Lemma X9_statuses_written_witness :
  ∃ row, db (mkState ∅ {["abc" := row0]} []) !! "abc" = Some row
         ∧ (COMPLETED = status row
            ∨ COMPLETED = RECORDING ∨ COMPLETED = PAUSED ∨ COMPLETED = COMPLETED).
Proof.
  apply (X9_statuses_written transcribe_fails (mkState ∅ {["abc" := row0]} []) "abc"
           (mkRecording COMPLETED
              (Some "Error: Failed to transcribe audio. Please check server logs.")
              (Some "Processing failed: [GoogleGenerativeAI Error]: fetch failed: 10.0.0.7:443")
              None)).
  vm_compute. reflexivity.
Defined.

(** ** A session without a row *)

(** X10. When the database has no row for the session, the pipeline stops
    after its first await: the clients get the two PROCESSING statuses and
    then one [recording-error] saying "Recording not found in database";
    Gemini is not called, nothing is written, and the registry entry is
    removed, so the buffered audio is lost. *)
Theorem X10_pipeline_without_row
    (sock id : string) (st : State) (r : LiveSession) (ec ef ee : Env) :
  activeRecordings st !! id = Some r →
  chunks r ≠ [] →
  db st !! id = None →
  db_throws ef = None →
  let n := length (pending st) in
  run [ (ec, CompleteRecording sock (mkRecordingData id)); (ef, Settle n); (ee, Settle n) ] st =
    (mkState (delete id (activeRecordings st)) (db st) (pending st),
     [ ToSocket sock (RecordingStatus id "PROCESSING");
       Broadcast (RecordingStatus id "PROCESSING");
       Broadcast (RecordingError id "Recording not found in database") ]).
Proof.
  intros Hr Hc Hrow Hf n.
  rewrite step_cons. cbn [step]. rewrite (complete_recording_starts sock id st r Hr Hc).
  cbn [fst snd]. subst n.
  settle_last. unfold prisma_findUnique. rewrite Hf, Hrow.
  unfold pipeline_catch. cbn [fst snd].
  settle_last. unfold prisma_update. rewrite Hrow.
  destruct (db_throws ee); cbn [fst snd run]; by destruct st.
Qed.

(** X10 on a session whose row was never created. *)
Lemma X10_pipeline_without_row_witness :
  (run [ (ok 2000, CompleteRecording "s1" (mkRecordingData "abc"));
         (ok 3000, Settle 0); (ok 4000, Settle 0) ]
       (run (take 1 twice) initial).1).2 =
    [ ToSocket "s1" (RecordingStatus "abc" "PROCESSING");
      Broadcast (RecordingStatus "abc" "PROCESSING");
      Broadcast (RecordingError "abc" "Recording not found in database") ].
Proof.
  pose proof (X10_pipeline_without_row "s1" "abc" (run (take 1 twice) initial).1
                (mkLiveSession "s1" 1000 [mkBlob [x01] "audio/webm"] false)
                (ok 2000) (ok 3000) (ok 4000)) as H.
  specialize (H eq_refl ltac:(done) eq_refl eq_refl).
  exact (f_equal snd H).
Defined.

(** ** What a message tells about the state *)

Ltac in_emits H :=
  repeat (apply elem_of_cons in H as [H|H]; [try discriminate|]);
  try (by apply elem_of_nil in H).

Ltac no_such_emit :=
  repeat split; intros;
  match goal with
  | H : _ ∈ _ |- _ => by in_emits H
  | |- _ ∉ _ => let H := fresh in intros H; by in_emits H
  end.

(** X11. A turn that emits [recording-completed] has, in the same turn,
    stored exactly the transcript, summary and duration of the message with
    status COMPLETED and removed the session from the registry; a turn that
    emits the status PAUSED or RECORDING has stored that status.  No turn
    sends [recording-completed] to a single socket. *)
Theorem X11_announced_is_stored (env : Env) (inp : Input) (st : State) :
  (∀ id s t d,
     Broadcast (RecordingCompleted id s t d) ∈ (step env inp st).2 →
     db (step env inp st).1 !! id = Some (mkRecording COMPLETED (Some t) (Some s) (Some d))
     ∧ activeRecordings (step env inp st).1 !! id = None)
  ∧ (∀ sock id,
       ToSocket sock (RecordingStatus id "PAUSED") ∈ (step env inp st).2 →
       status <$> db (step env inp st).1 !! id = Some PAUSED)
  ∧ (∀ sock id,
       ToSocket sock (RecordingStatus id "RECORDING") ∈ (step env inp st).2 →
       status <$> db (step env inp st).1 !! id = Some RECORDING)
  ∧ (∀ sock id s t d,
       ToSocket sock (RecordingCompleted id s t d) ∉ (step env inp st).2).
Proof.
  destruct inp as [sock data|sock data|sock data|sock data|sock| |i]; simpl.
  - unfold audio_chunk.
    destruct (String.eqb _ _), (isFinal data); simpl; no_such_emit.
  - unfold complete_recording, processRecordingWithGemini.
    destruct (activeRecordings st !! recordingId data) as [r|]; [|no_such_emit].
    destruct (chunks r); simpl; no_such_emit.
  - no_such_emit.
  - no_such_emit.
  - no_such_emit.
  - no_such_emit.
  - destruct (pending st !! i) as [[k|s0 i0|s0 i0]|]; simpl; [| | |no_such_emit].
    + destruct k as [i0 t0 b|i0 b d|i0 t d|i0 t s d|i0 e]; simpl.
      * destruct (prisma_findUnique _ _ _) as [|[|]]; simpl; no_such_emit.
      * destruct (ai env); simpl; no_such_emit.
      * destruct (ai env); simpl; no_such_emit.
      * unfold prisma_update. destruct (db_throws env); simpl; [no_such_emit|].
        destruct (db st !! i0); simpl; [|no_such_emit].
        split; [|no_such_emit].
        intros id s' t' d' H. apply list_elem_of_singleton in H. simplify_eq.
        by rewrite lookup_insert_eq, lookup_delete_eq.
      * no_such_emit.
    + unfold resume_status_update, prisma_update.
      destruct (db_throws env); simpl; [no_such_emit|].
      destruct (db st !! i0); simpl; [|no_such_emit].
      split; [no_such_emit|]. split; [|no_such_emit].
      intros sock id H. apply list_elem_of_singleton in H. simplify_eq.
      by rewrite lookup_insert_eq.
    + unfold resume_status_update, prisma_update.
      destruct (db_throws env); simpl; [no_such_emit|].
      destruct (db st !! i0); simpl; [|no_such_emit].
      split; [no_such_emit|]. split; [no_such_emit|]. split; [|no_such_emit].
      intros sock id H. apply list_elem_of_singleton in H. simplify_eq.
      by rewrite lookup_insert_eq.
Qed.

(** ** One session at a time *)

(** X12. Every message of a turn carries the [recordingId] of the session
    the turn is about: the id of the incoming message, or the id that the
    settling continuation was started with.  A disconnect, the timer and a
    settle that finds nothing emit no message. *)
Theorem X12_messages_name_their_session (env : Env) (inp : Input) (st : State) :
  Forall (λ e, target inp st = Some (event_id e)) (step env inp st).2.
Proof.
  destruct inp as [sock data|sock data|sock data|sock data|sock| |i]; simpl.
  - unfold audio_chunk. destruct (String.eqb _ _), (isFinal data); repeat constructor.
  - unfold complete_recording, processRecordingWithGemini.
    destruct (activeRecordings st !! recordingId data) as [r|]; [|repeat constructor].
    destruct (chunks r); repeat constructor.
  - constructor.
  - constructor.
  - constructor.
  - constructor.
  - destruct (pending st !! i) as [[k|s0 i0|s0 i0]|]; simpl; [| | |constructor].
    + destruct k; simpl.
      * destruct (prisma_findUnique _ _ _) as [|[|]]; repeat constructor.
      * destruct (ai env); repeat constructor.
      * destruct (ai env); repeat constructor.
      * destruct (prisma_update _ _ _ _); repeat constructor.
      * repeat constructor.
    + unfold resume_status_update. destruct (prisma_update _ _ _ _); repeat constructor.
    + unfold resume_status_update. destruct (prisma_update _ _ _ _); repeat constructor.
Qed.

Lemma prisma_update_other o id f d id' :
  id' ≠ id →
  match prisma_update o id f d with inl _ => d | inr d' => d' end !! id' = d !! id'.
Proof.
  intros Hne. unfold prisma_update. destruct o; [done|].
  destruct (d !! id); [|done]. by rewrite lookup_insert_ne.
Qed.

(** X13. A turn about one session leaves every other session alone: the
    registry entry and the database row of any other id are the same after
    the turn as before.  This covers the four socket messages and every
    settling await; only a disconnect and the timer act on several
    sessions. *)
Theorem X13_other_sessions_untouched
    (env : Env) (inp : Input) (st : State) (id id' : string) :
  target inp st = Some id →
  id' ≠ id →
  activeRecordings (step env inp st).1 !! id' = activeRecordings st !! id'
  ∧ db (step env inp st).1 !! id' = db st !! id'.
Proof.
  intros Ht Hne.
  destruct inp as [sock data|sock data|sock data|sock data|sock| |i]; simpl in *;
    try discriminate; simplify_eq.
  - unfold audio_chunk. destruct (String.eqb _ _); simpl; [done|]. split; [|done].
    rewrite lookup_alter_ne by done.
    destruct (activeRecordings st !! chunk_recordingId data); [done|].
    by rewrite lookup_insert_ne.
  - unfold complete_recording, processRecordingWithGemini.
    destruct (activeRecordings st !! recordingId data) as [r|]; [|done].
    destruct (chunks r); simpl; [|done]. by rewrite lookup_delete_ne.
  - by rewrite lookup_alter_ne.
  - by rewrite lookup_alter_ne.
  - destruct (pending st !! i) as [[k|s0 i0|s0 i0]|]; simplify_eq; simpl.
    + destruct k as [i0 t0 b|i0 b d|i0 t d|i0 t s d|i0 e]; simpl in *.
      * by destruct (prisma_findUnique _ _ _) as [|[|]].
      * by destruct (ai env).
      * by destruct (ai env).
      * pose proof (prisma_update_other (db_throws env) i0
                      (completed_fields t s d) (db st) id' Hne) as H.
        destruct (prisma_update _ _ _ _); simpl; [done|].
        by rewrite lookup_delete_ne.
      * rewrite lookup_delete_ne by done. split; [done|].
        by apply prisma_update_other.
    + unfold resume_status_update.
      pose proof (prisma_update_other (db_throws env) id (set_status PAUSED) (db st) id' Hne) as H.
      by destruct (prisma_update _ _ _ _).
    + unfold resume_status_update.
      pose proof (prisma_update_other (db_throws env) id (set_status RECORDING) (db st) id' Hne) as H.
      by destruct (prisma_update _ _ _ _).
Qed.

(** X13 on the last turn of a pipeline for "abc", seen from session "xyz". *)
Lemma X13_other_sessions_untouched_witness :
  let r := mkLiveSession "s2" 500 [mkBlob [x05] "audio/webm"] false in
  let st := mkState {["xyz" := r]} {["abc" := row0; "xyz" := row0]}
                    [Pipeline (AwaitUpdate "abc" "text" "points" 3)] in
  activeRecordings (step (ok 9000) (Settle 0) st).1 !! "xyz" = Some r
  ∧ db (step (ok 9000) (Settle 0) st).1 !! "xyz" = Some row0.
Proof.
  intros r st.
  destruct (X13_other_sessions_untouched (ok 9000) (Settle 0) st "abc" "xyz")
    as [H1 H2]; [reflexivity | done |].
  split; [exact H1 | exact H2].
Defined.

(** ** Shutting down *)

(** X14. However many SIGTERM, SIGINT and uncaught exceptions arrive, and
    in whatever order, the servers are closed and the exit timer is armed
    once, by the first of them; unhandled rejections never shut down; once
    the flag is set nothing is closed again. *)
Theorem X14_shutdown_runs_once (evs : list ProcessEvent) (isShuttingDown : bool) :
  on_process_events evs isShuttingDown =
    (isShuttingDown || existsb shuts_down evs,
     if isShuttingDown then []
     else if existsb shuts_down evs then [ServerClose; IoClose; ForceExitAfter 30000]
     else []).
Proof.
  revert isShuttingDown. induction evs as [|ev evs IH]; intros f; simpl.
  - by destruct f.
  - destruct ev, f; simpl; rewrite IH; simpl; try done; by destruct (existsb shuts_down evs).
Qed.

(** ** Turns that fall between a completion and its result *)

Lemma quiet_step_spawn env inp st k :
  quiet inp = true →
  step env inp (spawn st k) = (spawn (step env inp st).1 k, (step env inp st).2)
  ∧ db (step env inp st).1 = db st
  ∧ pending (step env inp st).1 = pending st.
Proof.
  destruct inp as [sock data|sock data|sock data|sock data|sock| |i];
    try discriminate; intros _; simpl; [|done..].
  unfold audio_chunk. by destruct (String.eqb _ _).
Qed.

Lemma pipeline_from_find st id t0 blob row ef et es eu transcript summary n :
  n = length (pending st) →
  db st !! id = Some row →
  db_throws ef = None → db_throws eu = None →
  ai et = inr transcript → ai es = inr summary →
  run (settles n [ef; et; es; eu]) (spawn st (Pipeline (AwaitFindUnique id t0 blob))) =
    (mkState (delete id (activeRecordings st))
             (<[id := mkRecording COMPLETED (Some transcript) (Some summary)
                        (Some ((now ef - t0) / 1000))]> (db st))
             (pending st),
     [ Broadcast (TranscriptionUpdate id transcript (iso et) true);
       Broadcast (RecordingCompleted id summary transcript ((now ef - t0) / 1000)) ]).
Proof.
  intros -> Hrow Hf Hu Ht Hs. unfold settles. cbn [map].
  settle_last. unfold prisma_findUnique. rewrite Hf, Hrow. cbn [fst snd].
  settle_last. rewrite Ht. cbn [fst snd].
  settle_last. rewrite Hs. cbn [fst snd].
  settle_last. unfold prisma_update. rewrite Hu, Hrow. cbn [fst snd run]. reflexivity.
Qed.

(** X15. A chunk, a disconnect or a sweep that is handled after
    [complete-recording] and before the first await of the pipeline settles
    changes nothing of the result: the audio sent to transcription is made
    of the chunks buffered when the completion was handled, and the
    messages, the stored row and the duration are those of an undisturbed
    run.  A chunk that arrives then is acknowledged, is not transcribed, and
    is gone when the pipeline removes the entry. *)
Theorem X15_result_fixed_at_completion
    (sock id : string) (st : State) (r : LiveSession) (row : Recording)
    (mid : Input) (ec em ef et es eu : Env) (transcript summary : string) :
  activeRecordings st !! id = Some r →
  chunks r ≠ [] →
  db st !! id = Some row →
  db_throws ef = None → db_throws eu = None →
  ai et = inr transcript → ai es = inr summary →
  quiet mid = true →
  let n := length (pending st) in
  let d := (now ef - startTime r) / 1000 in
  let start := [ (ec, CompleteRecording sock (mkRecordingData id)); (em, mid) ] in
  let res := run (start ++ settles n [ef; et; es; eu]) st in
  pending (run (start ++ settles n [ef]) st).1 =
    (pending st ++ [Pipeline (AwaitTranscribe id
                                (new_Blob_of_blobs (chunks r) "audio/webm") d)])%list
  ∧ res.2 =
      ([ ToSocket sock (RecordingStatus id "PROCESSING");
         Broadcast (RecordingStatus id "PROCESSING") ] ++
       (step em mid st).2 ++
       [ Broadcast (TranscriptionUpdate id transcript (iso et) true);
         Broadcast (RecordingCompleted id summary transcript d) ])%list
  ∧ activeRecordings res.1 !! id = None
  ∧ db res.1 !! id = Some (mkRecording COMPLETED (Some transcript) (Some summary) (Some d)).
Proof.
  intros Hr Hc Hrow Hf Hu Ht Hs Hq n d start res.
  destruct (quiet_step_spawn em mid st
              (Pipeline (AwaitFindUnique id (startTime r)
                           (new_Blob_of_blobs (chunks r) "audio/webm"))) Hq)
    as (Hstep & Hdb & Hp).
  set (st1 := (step em mid st).1) in *.
  assert (Hstart : ∀ tl, run (start ++ tl) st =
            ((run tl (spawn st1 (Pipeline (AwaitFindUnique id (startTime r)
                        (new_Blob_of_blobs (chunks r) "audio/webm"))))).1,
             ([ ToSocket sock (RecordingStatus id "PROCESSING");
                Broadcast (RecordingStatus id "PROCESSING") ] ++
              (step em mid st).2 ++
              (run tl (spawn st1 (Pipeline (AwaitFindUnique id (startTime r)
                        (new_Blob_of_blobs (chunks r) "audio/webm"))))).2)%list)).
  { intros tl. subst start. cbn [app].
    rewrite step_cons. cbn [step].
    rewrite (complete_recording_starts sock id st r Hr Hc). cbn [fst snd].
    rewrite step_cons, Hstep. cbn [fst snd]. reflexivity. }
  split.
  - rewrite Hstart. cbn [fst]. unfold settles. cbn [map].
    rewrite step_cons, settle_spawned_at by (by subst n; rewrite Hp).
    cbn [resume resume_pipeline]. unfold prisma_findUnique.
    rewrite Hf, Hdb, Hrow. cbn [fst snd run spawn pending]. by rewrite Hp.
  - subst res. rewrite Hstart.
    rewrite (pipeline_from_find st1 id (startTime r) _ row ef et es eu transcript summary n);
      [|by subst n; rewrite Hp|by rewrite Hdb|done..].
    cbn [fst snd activeRecordings db]. split; [done|].
    split; [apply lookup_delete_eq | apply lookup_insert_eq].
Qed.

(** X15 with a chunk that arrives after the completion signal. *)
Lemma X15_result_fixed_at_completion_witness :
  let st := (run (take 1 twice) (mkState ∅ {["abc" := row0]} [])).1 in
  let late := AudioChunk "s1" (mkAudioChunkData "abc" [x02] false) in
  let res := run ([ (ok 2000, CompleteRecording "s1" (mkRecordingData "abc"));
                    (ok 2500, late) ] ++
                  settles 0 [ok 3000; ok 4000; ok 5000; ok 6000]) st in
  activeRecordings res.1 !! "abc" = None
  ∧ db res.1 !! "abc" = Some (mkRecording COMPLETED (Some "text") (Some "text") (Some 2)).
Proof.
  intros st late res.
  destruct (X15_result_fixed_at_completion "s1" "abc" st
              (mkLiveSession "s1" 1000 [mkBlob [x01] "audio/webm"] false) row0 late
              (ok 2000) (ok 2500) (ok 3000) (ok 4000) (ok 5000) (ok 6000) "text" "text")
    as (_ & _ & H1 & H2);
    [reflexivity | done | reflexivity | reflexivity | reflexivity
     | reflexivity | reflexivity | reflexivity | ].
  split; [exact H1 | exact H2].
Defined.

(** ** A session older than one hour *)

(** X16. When the sweep runs on a session that started more than an hour
    before and a chunk for the same id arrives afterwards, the registry
    holds a new session made of that chunk alone, owned by its sender and
    started at its arrival: the audio buffered before the sweep is lost and
    the duration will be counted from the new start. *)
Theorem X16_sweep_restarts_session
    (et ec : Env) (sock : string) (data : AudioChunkData) (st : State) (r : LiveSession) :
  chunk_recordingId data ≠ "" →
  activeRecordings st !! chunk_recordingId data = Some r →
  (startTime r < now et - 3600000)%Z →
  activeRecordings (run [ (et, Tick); (ec, AudioChunk sock data) ] st).1
    !! chunk_recordingId data =
  Some (mkLiveSession sock (now ec) [mkBlob (chunk data) "audio/webm"] false).
Proof.
  intros Hid Hr Hold. rewrite step_cons. cbn [fst]. rewrite run_one. cbn [fst snd step].
  rewrite (audio_chunk_lookup _ _ _ _ Hid), cleanup_lookup, Hr.
  by rewrite decide_True.
Qed.

(** X16 on a session that started at time 0, swept after an hour and a second. *)
Lemma X16_sweep_restarts_session_witness :
  let st := (run [ (ok 0, AudioChunk "s1" (mkAudioChunkData "abc" [x01] false)) ] initial).1 in
  activeRecordings (run [ (ok 3601000, Tick);
                          (ok 3602000, AudioChunk "s1" (mkAudioChunkData "abc" [x02] false)) ]
                        st).1 !! "abc" =
  Some (mkLiveSession "s1" 3602000 [mkBlob [x02] "audio/webm"] false).
Proof.
  intros st.
  apply (X16_sweep_restarts_session (ok 3601000) (ok 3602000) "s1"
           (mkAudioChunkData "abc" [x02] false) st
           (mkLiveSession "s1" 0 [mkBlob [x01] "audio/webm"] false));
    [done | reflexivity | simpl; lia].
Defined.

(** ** Two completion signals in a row, to the end *)

Lemma settle_front env c x reg d P :
  step env (Settle (length P)) (mkState reg d (P ++ [c; x])) =
  resume env c (mkState reg d (P ++ [x])).
Proof.
  cbn [step pending activeRecordings db].
  rewrite list_lookup_middle by done. by rewrite delete_middle.
Qed.

Lemma settle_single env c reg d P :
  step env (Settle (length P)) (mkState reg d (P ++ [c])) =
  resume env c (mkState reg d P).
Proof. apply (settle_spawned env c (mkState reg d P)). Qed.

(** The next turn of the trace settles the older of two pending pipelines. *)
Ltac settle_older :=
  rewrite step_cons, settle_front; cbn [resume resume_pipeline].

Ltac queue_younger :=
  cbn [fst snd]; unfold spawn; cbn [activeRecordings db pending];
  rewrite <- app_assoc; cbn [app].

(** Two [complete-recording] in a row on a buffered session whose row
    exists, the awaits of the two pipelines settling in turn and all well:
    each pipeline reads the row, transcribes, summarises and writes. *)
Lemma complete_twice_runs_twice
    sock1 sock2 id st r row c1 c2 f1 f2 t1 t2 s1 s2 u1 u2 tr1 tr2 su1 su2 :
  activeRecordings st !! id = Some r →
  chunks r ≠ [] →
  db st !! id = Some row →
  db_throws f1 = None → db_throws f2 = None →
  db_throws u1 = None → db_throws u2 = None →
  ai t1 = inr tr1 → ai t2 = inr tr2 →
  ai s1 = inr su1 → ai s2 = inr su2 →
  let n := length (pending st) in
  let d1 := (now f1 - startTime r) / 1000 in
  let d2 := (now f2 - startTime r) / 1000 in
  run ([ (c1, CompleteRecording sock1 (mkRecordingData id));
         (c2, CompleteRecording sock2 (mkRecordingData id)) ] ++
       settles n [f1; f2; t1; t2; s1; s2; u1; u2]) st =
    (mkState (delete id (delete id (activeRecordings st)))
             (<[id := mkRecording COMPLETED (Some tr2) (Some su2) (Some d2)]>
                (<[id := mkRecording COMPLETED (Some tr1) (Some su1) (Some d1)]> (db st)))
             (pending st),
     [ ToSocket sock1 (RecordingStatus id "PROCESSING");
       Broadcast (RecordingStatus id "PROCESSING");
       ToSocket sock2 (RecordingStatus id "PROCESSING");
       Broadcast (RecordingStatus id "PROCESSING");
       Broadcast (TranscriptionUpdate id tr1 (iso t1) true);
       Broadcast (TranscriptionUpdate id tr2 (iso t2) true);
       Broadcast (RecordingCompleted id su1 tr1 d1);
       Broadcast (RecordingCompleted id su2 tr2 d2) ]).
Proof.
  intros Hr Hc Hrow Hf1 Hf2 Hu1 Hu2 Ht1 Ht2 Hs1 Hs2 n d1 d2.
  unfold settles. cbn [map app].
  rewrite step_cons. cbn [step]. rewrite (complete_recording_starts sock1 id st r Hr Hc).
  cbn [fst snd].
  rewrite step_cons. cbn [step].
  rewrite (complete_recording_starts sock2 id (spawn st _) r Hr Hc).
  subst n. destruct st as [reg d P]. cbn [activeRecordings db pending] in *.
  queue_younger.
  settle_older. unfold prisma_findUnique. rewrite Hf1. cbn [db]. rewrite Hrow. queue_younger.
  settle_older. unfold prisma_findUnique. rewrite Hf2. cbn [db]. rewrite Hrow. queue_younger.
  settle_older. rewrite Ht1. queue_younger.
  settle_older. rewrite Ht2. queue_younger.
  settle_older. rewrite Hs1. queue_younger.
  settle_older. rewrite Hs2. queue_younger.
  settle_older. unfold prisma_update. rewrite Hu1. cbn [db]. rewrite Hrow.
  cbn [fst snd]. unfold set_activeRecordings, set_db.
  cbn [activeRecordings db pending].
  rewrite step_cons, settle_single. cbn [resume resume_pipeline]. unfold prisma_update. rewrite Hu2. cbn [db].
  rewrite lookup_insert_eq.
  cbn [fst snd run]. unfold set_activeRecordings, set_db.
  cbn [activeRecordings db pending app]. reflexivity.
Qed.

(** C1, amended.  Starting the pipeline neither removes nor drains the
    registry entry: while the session is buffered, each of two
    [complete-recording] in a row queues a pipeline over the same chunks.
    No turn of a pipeline touches the registry before its last one: the
    turns that settle the row read, the transcription, the summary and a
    failed write leave it as it is, and the entry is deleted by the turn
    that emits [recording-completed] or [recording-error].  So, when the
    row exists and every call succeeds, both pipelines run to the end: two
    row reads, two transcriptions, two summaries, two writes and two
    [recording-completed].  A [complete-recording] that finds no entry
    queues nothing, changes nothing and only reports "Recording session not
    found" to its socket. *)
Theorem C1_complete_not_idempotent
    (sock1 sock2 id : string) (st : State) (r : LiveSession) :
  activeRecordings st !! id = Some r →
  chunks r ≠ [] →
  let k := Pipeline (AwaitFindUnique id (startTime r)
                       (new_Blob_of_blobs (chunks r) "audio/webm")) in
  let st1 := (complete_recording sock1 (mkRecordingData id) st).1 in
  let st2 := (complete_recording sock2 (mkRecordingData id) st1).1 in
  (activeRecordings st1 = activeRecordings st ∧ pending st1 = (pending st ++ [k])%list)
  ∧ (activeRecordings st2 = activeRecordings st ∧ pending st2 = (pending st ++ [k; k])%list)
  ∧ (∀ env st',
       (∀ t0 b, activeRecordings (resume_pipeline env (AwaitFindUnique id t0 b) st').1
                = activeRecordings st')
       ∧ (∀ b d, activeRecordings (resume_pipeline env (AwaitTranscribe id b d) st').1
                 = activeRecordings st')
       ∧ (∀ t d, activeRecordings (resume_pipeline env (AwaitSummary id t d) st').1
                 = activeRecordings st')
       ∧ (∀ t s d, activeRecordings (resume_pipeline env (AwaitUpdate id t s d) st').1
                   = match prisma_update (db_throws env) id
                             (completed_fields t s d) (db st') with
                     | inl _ => activeRecordings st'
                     | inr _ => delete id (activeRecordings st')
                     end)
       ∧ (∀ e, activeRecordings (resume_pipeline env (AwaitErrorUpdate id e) st').1
               = delete id (activeRecordings st')))
  ∧ (∀ sock st', activeRecordings st' !! id = None →
       complete_recording sock (mkRecordingData id) st' =
         (st', [ToSocket sock (RecordingError id
                  "Recording session not found. No audio chunks received.")]))
  ∧ (∀ row c1 c2 f1 f2 t1 t2 s1 s2 u1 u2 tr1 tr2 su1 su2,
       db st !! id = Some row →
       db_throws f1 = None → db_throws f2 = None →
       db_throws u1 = None → db_throws u2 = None →
       ai t1 = inr tr1 → ai t2 = inr tr2 →
       ai s1 = inr su1 → ai s2 = inr su2 →
       let d1 := (now f1 - startTime r) / 1000 in
       let d2 := (now f2 - startTime r) / 1000 in
       run ([ (c1, CompleteRecording sock1 (mkRecordingData id));
              (c2, CompleteRecording sock2 (mkRecordingData id)) ] ++
            settles (length (pending st)) [f1; f2; t1; t2; s1; s2; u1; u2]) st =
         (mkState (delete id (delete id (activeRecordings st)))
                  (<[id := mkRecording COMPLETED (Some tr2) (Some su2) (Some d2)]>
                     (<[id := mkRecording COMPLETED (Some tr1) (Some su1) (Some d1)]>
                        (db st)))
                  (pending st),
          [ ToSocket sock1 (RecordingStatus id "PROCESSING");
            Broadcast (RecordingStatus id "PROCESSING");
            ToSocket sock2 (RecordingStatus id "PROCESSING");
            Broadcast (RecordingStatus id "PROCESSING");
            Broadcast (TranscriptionUpdate id tr1 (iso t1) true);
            Broadcast (TranscriptionUpdate id tr2 (iso t2) true);
            Broadcast (RecordingCompleted id su1 tr1 d1);
            Broadcast (RecordingCompleted id su2 tr2 d2) ])).
Proof.
  intros Hr Hc k st1 st2.
  assert (E1 : st1 = spawn st k).
  { subst st1. by rewrite (complete_recording_starts sock1 id st r Hr Hc). }
  assert (E2 : st2 = spawn (spawn st k) k).
  { subst st2. rewrite E1.
    by rewrite (complete_recording_starts sock2 id (spawn st k) r Hr Hc). }
  rewrite E1, E2. split; [done|]. split; [simpl; by rewrite <- app_assoc|].
  split; [|split].
  - intros env st'. split; [|split; [|split; [|split]]].
    + intros t0 b. simpl. by destruct (prisma_findUnique _ _ _) as [|[|]].
    + intros b d. simpl. by destruct (ai env).
    + intros t d. simpl. by destruct (ai env).
    + intros t s d. simpl. by destruct (prisma_update _ _ _ _).
    + done.
  - intros sock st' Hnone. unfold complete_recording. simpl. by rewrite Hnone.
  - intros row c1 c2 f1 f2 t1 t2 s1 s2 u1 u2 tr1 tr2 su1 su2 Hrow
           Hf1 Hf2 Hu1 Hu2 Ht1 Ht2 Hs1 Hs2.
    by apply (complete_twice_runs_twice sock1 sock2 id st r row).
Qed.

(** C1 amended, on a session with one chunk: the messages of the whole run. *)
Lemma C1_complete_not_idempotent_witness :
  (run (drop 1 twice) (run (take 1 twice) (mkState ∅ {["abc" := row0]} [])).1).2 =
    [ ToSocket "s1" (RecordingStatus "abc" "PROCESSING");
      Broadcast (RecordingStatus "abc" "PROCESSING");
      ToSocket "s1" (RecordingStatus "abc" "PROCESSING");
      Broadcast (RecordingStatus "abc" "PROCESSING");
      Broadcast (TranscriptionUpdate "abc" "text" "2025-11-20T17:12:58.000Z" true);
      Broadcast (TranscriptionUpdate "abc" "text" "2025-11-20T17:12:58.000Z" true);
      Broadcast (RecordingCompleted "abc" "text" "text" 2);
      Broadcast (RecordingCompleted "abc" "text" "text" 2) ].
Proof.
  destruct (C1_complete_not_idempotent "s1" "s1" "abc"
              (run (take 1 twice) (mkState ∅ {["abc" := row0]} [])).1
              (mkLiveSession "s1" 1000 [mkBlob [x01] "audio/webm"] false))
    as (_ & _ & _ & _ & H); [reflexivity | done |].
  specialize (H row0 (ok 2000) (ok 2000) (ok 3000) (ok 3000) (ok 4000) (ok 4000)
                (ok 5000) (ok 5000) (ok 6000) (ok 6000) "text" "text" "text" "text"
                eq_refl eq_refl eq_refl eq_refl eq_refl eq_refl eq_refl eq_refl eq_refl).
  exact (f_equal snd H).
Defined.
